(** * Double-entry ledger (accounting_app.py): model and properties

    The Reflex application keeps one table, [JournalEntry], and three page
    states ([LedgerState], [AccountingState], [TrialBalanceState]) whose event
    handlers read and write that table.  Each handler is embedded as a
    function of the table and of the state it belongs to.  Python's [float]
    is IEEE 754 binary64; it is modelled by the bit-exact [spec_float] of the
    standard library, so rounding, infinities and NaN behave as in the
    program. *)

From Stdlib Require Import ZArith List String Ascii Bool Lia.
From Stdlib Require Import Floats.SpecFloat.
From Stdlib Require Import DecimalString.
From Stdlib Require Import Sorting.Permutation Sorting.Sorted.
From Stdlib Require OrderedTypeEx.
Import ListNotations.

Local Open Scope string_scope.
Local Open Scope Z_scope.

(* ================================================================== *)
(** ** Python floats *)

Module Float.

Definition float := spec_float.

Definition prec : Z := 53.
Definition emax : Z := 1024.

Definition zero : float := S754_zero false.
Definition nan : float := S754_nan.
Definition infinity : float := S754_infinity false.

Definition add (x y : float) : float := SFadd prec emax x y.
Definition sub (x y : float) : float := SFsub prec emax x y.
Definition abs (x : float) : float := SFabs x.
Definition ltb (x y : float) : bool := SFltb x y.
Definition leb (x y : float) : bool := SFleb x y.

Definition is_nan (x : float) : bool :=
  match x with S754_nan => true | _ => false end.

(** The float nearest to the integer [n] (what [float(n)] returns). *)
Definition of_Z (n : Z) : float := binary_normalize prec emax n 0 false.

(** The float nearest to [m * 10^e], ties to even, as [strtod] computes it
    from the digits [m] and the decimal exponent [e] of a literal. *)
Definition of_decimal (neg : bool) (m : N) (e : Z) : float :=
  match m with
  | N0 => S754_zero neg
  | Npos p =>
      match e with
      | Zneg k =>
          SFdiv prec emax (S754_finite neg p 0)
                (S754_finite false (Pos.pow 10 k) 0)
      | _ => binary_normalize prec emax
               (cond_Zopp neg (Zpos p * Z.pow 10 e)) 0 neg
      end
  end.

(** The literal [0.01] of the source. *)
Definition c0_01 : float := Eval vm_compute in of_decimal false 1 (-2).

(** [sum(l)] over a list of floats: [+] folded from the left, from 0.
    (CPython 3.12 and later carry a compensation term along; it is 0, and
    the result the same, whenever every partial sum is exact.) *)
Definition sum (l : list float) : float := fold_left add l zero.

End Float.

(* ================================================================== *)
(** ** [float(s)]: the parser behind [float(self.amount)]

    A Python [str] is held as its UTF-8 bytes.  CPython parses an ASCII
    string as it is; in any other string it first turns every Unicode space
    into a blank and every Unicode decimal digit into its ASCII digit
    ([_PyUnicode_TransformDecimalAndSpaceToASCII]). *)

Module FloatParse.

(** [Py_ISSPACE]: blank, tab, line feed, vertical tab, form feed, return. *)
Definition is_space (c : ascii) : bool :=
  let n := nat_of_ascii c in
  (((9 <=? n) && (n <=? 13)) || (n =? 32))%nat.

Definition is_digit (c : ascii) : bool :=
  let n := nat_of_ascii c in ((48 <=? n) && (n <=? 57))%nat.

Definition digit_val (c : ascii) : N := N.of_nat (nat_of_ascii c - 48).

Definition lower (c : ascii) : ascii :=
  let n := nat_of_ascii c in
  if ((65 <=? n) && (n <=? 90))%nat then ascii_of_nat (n + 32) else c.

Fixpoint lstrip (l : list ascii) : list ascii :=
  match l with
  | c :: l' => if is_space c then lstrip l' else l
  | [] => []
  end.

Definition strip (l : list ascii) : list ascii :=
  rev (lstrip (rev (lstrip l))).

(** An underscore is accepted only between two digits, and dropped. *)
Fixpoint drop_underscores (prev : ascii) (l : list ascii)
  : option (list ascii) :=
  match l with
  | [] => if Ascii.eqb prev "_" then None else Some []
  | c :: l' =>
      if Ascii.eqb c "_" then
        if is_digit prev then drop_underscores c l' else None
      else if Ascii.eqb prev "_" && negb (is_digit c) then None
      else option_map (cons c) (drop_underscores c l')
  end.

(** Leading digits of [l], folded into [acc]; returns the value, the
    number of digits read and the rest. *)
Fixpoint digits (acc : N) (cnt : nat) (l : list ascii)
  : N * nat * list ascii :=
  match l with
  | c :: l' =>
      if is_digit c then digits (acc * 10 + digit_val c)%N (S cnt) l'
      else (acc, cnt, l)
  | [] => (acc, cnt, [])
  end.

Definition sign (l : list ascii) : bool * list ascii :=
  match l with
  | "-"%char :: l' => (true, l')
  | "+"%char :: l' => (false, l')
  | _ => (false, l)
  end.

(** An exponent part [e[+-]ddd] in front of [l]; [None] when what follows
    the mantissa is not a complete exponent. *)
Definition exponent (l : list ascii) : option Z :=
  match l with
  | [] => Some 0
  | c :: l' =>
      if Ascii.eqb (lower c) "e" then
        let '(neg, l1) := sign l' in
        match digits 0 0 l1 with
        | (_, O, _) => None
        | (v, _, []) => Some (cond_Zopp neg (Z.of_N v))
        | _ => None
        end
      else None
  end.

Definition number (neg : bool) (l : list ascii) : option Float.float :=
  let '(ip, ni, l1) := digits 0 0 l in
  let '(m, nf, l2) :=
    match l1 with
    | "."%char :: l1' => let '(m, n, r) := digits ip 0 l1' in (m, n, r)
    | _ => (ip, O, l1)
    end in
  match (ni + nf)%nat with
  | O => None
  | _ =>
      match exponent l2 with
      | Some e => Some (Float.of_decimal neg m (e - Z.of_nat nf))
      | None => None
      end
  end.

(** The float an ASCII string reads as, [None] for [ValueError]. *)
Definition float_of_ascii (chars : list ascii) : option Float.float :=
  let l := strip chars in
  let '(neg, body) := sign l in
  let word := string_of_list_ascii (map lower body) in
  if String.eqb word "inf" || String.eqb word "infinity" then
    Some (S754_infinity neg)
  else if String.eqb word "nan" then Some S754_nan
  else
    match drop_underscores "000" l with
    | None => None
    | Some l' => let '(neg, body) := sign l' in number neg body
    end.

(** A continuation byte of UTF-8 and its six bits. *)
Definition continuation (c : ascii) : option N :=
  let n := N_of_ascii c in
  if ((128 <=? n) && (n <? 192))%N then Some (n - 128)%N else None.

(** The code points of a well-formed UTF-8 string. *)
Fixpoint utf8_decode (l : list ascii) : option (list N) :=
  match l with
  | [] => Some []
  | b0 :: l1 =>
      let n0 := N_of_ascii b0 in
      if (n0 <? 128)%N then option_map (cons n0) (utf8_decode l1)
      else if ((194 <=? n0) && (n0 <? 224))%N then
        match l1 with
        | b1 :: l2 =>
            match continuation b1 with
            | Some c1 =>
                option_map (cons ((n0 - 192) * 64 + c1)%N) (utf8_decode l2)
            | None => None
            end
        | _ => None
        end
      else if ((224 <=? n0) && (n0 <? 240))%N then
        match l1 with
        | b1 :: b2 :: l3 =>
            match continuation b1, continuation b2 with
            | Some c1, Some c2 =>
                let cp := ((n0 - 224) * 4096 + c1 * 64 + c2)%N in
                if ((2048 <=? cp) && negb ((55296 <=? cp) && (cp <? 57344)))%N
                then option_map (cons cp) (utf8_decode l3)
                else None
            | _, _ => None
            end
        | _ => None
        end
      else if ((240 <=? n0) && (n0 <? 245))%N then
        match l1 with
        | b1 :: b2 :: b3 :: l4 =>
            match continuation b1, continuation b2, continuation b3 with
            | Some c1, Some c2, Some c3 =>
                let cp := ((n0 - 240) * 262144 + c1 * 4096 + c2 * 64 + c3)%N in
                if ((65536 <=? cp) && (cp <? 1114112))%N
                then option_map (cons cp) (utf8_decode l4)
                else None
            | _, _, _ => None
            end
        | _ => None
        end
      else None
  end.

(** [Py_UNICODE_ISSPACE] above ASCII. *)
Definition unicode_space (cp : N) : bool :=
  ((cp =? 133) || (cp =? 160) || (cp =? 5760)
   || ((8192 <=? cp) && (cp <=? 8202))
   || (cp =? 8232) || (cp =? 8233) || (cp =? 8239) || (cp =? 8287)
   || (cp =? 12288))%N.

(** The digits zero of the decimal digit characters above ASCII (Unicode
    14, the tables of CPython 3.11); each is followed by its digits one to
    nine. *)
Definition decimal_zeros : list N :=
  [1632; 1776; 1984; 2406; 2534; 2662; 2790; 2918; 3046; 3174; 3302; 3430;
   3558; 3664; 3792; 3872; 4160; 4240; 6112; 6160; 6470; 6608; 6784; 6800;
   6992; 7088; 7232; 7248; 42528; 43216; 43264; 43472; 43504; 43600; 44016;
   65296; 66720; 68912; 69734; 69872; 69942; 70096; 70384; 70736; 70864;
   71248; 71360; 71472; 71904; 72016; 72784; 73040; 73120; 92768; 92864;
   93008; 120782; 120792; 120802; 120812; 120822; 123200; 123632; 125264;
   130032]%N.

(** [Py_UNICODE_TODECIMAL] above ASCII. *)
Definition unicode_decimal (cp : N) : option N :=
  match find (fun z => (z <=? cp) && (cp <? z + 10))%N decimal_zeros with
  | Some z => Some (cp - z)%N
  | None => None
  end.

(** The ASCII string CPython parses in place of a string that is not
    ASCII; it ends on a question mark at the first character that is
    neither below 127, nor a space, nor a decimal digit. *)
Fixpoint transform (cps : list N) : list ascii :=
  match cps with
  | [] => []
  | cp :: cps' =>
      if (cp <? 127)%N then ascii_of_N cp :: transform cps'
      else if unicode_space cp then " "%char :: transform cps'
      else
        match unicode_decimal cp with
        | Some d => ascii_of_N (48 + d) :: transform cps'
        | None => ["?"%char]
        end
  end.

Definition is_ascii (c : ascii) : bool := (N_of_ascii c <? 128)%N.

Definition float_of_string (s : string) : option Float.float :=
  let bytes := list_ascii_of_string s in
  if forallb is_ascii bytes then float_of_ascii bytes
  else
    match utf8_decode bytes with
    | Some cps => float_of_ascii (transform cps)
    | None => None
    end.

End FloatParse.

(* ================================================================== *)
(** ** [f"{x:,.2f}"]: two decimals, thousands separated by commas *)

Module Format.

(** [|x| * 100] for [|x| = m * 2^e], rounded to an integer, ties to even. *)
Definition cents (m : positive) (e : Z) : N :=
  match e with
  | Zneg k =>
      let num := (Npos m * 100)%N in
      let den := Npos (Pos.pow 2 k) in
      let q := (num / den)%N in
      match (2 * (num mod den) ?= den)%N with
      | Lt => q
      | Gt => (q + 1)%N
      | Eq => if N.even q then q else (q + 1)%N
      end
  | _ => (Npos m * 2 ^ Z.to_N e * 100)%N
  end.

(** Commas every three digits, on the digits in reverse order. *)
Fixpoint commas (l : list ascii) : list ascii :=
  match l with
  | a :: b :: c :: ((_ :: _) as rest) => a :: b :: c :: ","%char :: commas rest
  | _ => l
  end.

Definition digits_of (n : N) : string := NilZero.string_of_uint (N.to_uint n).

Definition grouped (n : N) : string :=
  string_of_list_ascii (rev (commas (rev (list_ascii_of_string (digits_of n))))).

Definition two_digits (n : N) : string :=
  if (n <? 10)%N then "0" ++ digits_of n else digits_of n.

Definition fixed2 (neg : bool) (c : N) : string :=
  (if neg then "-" else "") ++ grouped (c / 100) ++ "." ++ two_digits (c mod 100).

Definition comma_2f (x : Float.float) : string :=
  match x with
  | S754_nan => "nan"
  | S754_infinity s => if s then "-inf" else "inf"
  | S754_zero s => fixed2 s 0
  | S754_finite s m e => fixed2 s (cents m e)
  end.

End Format.

(* ================================================================== *)
(** ** The database model *)

Module JournalEntry.

(** The General Ledger table.  The primary key [id] that [rx.Model] adds is
    the position of the row: a table is the list of its rows in insertion
    order, that is by ascending [id]. *)
Record t := mk {
  date : string;
  description : string;
  account : string;
  category : string;
  debit : Float.float;
  credit : Float.float
}.

End JournalEntry.

Definition table := list JournalEntry.t.

Module TrialBalanceRow.

Record t := mk {
  account : string;
  debit_balance : Float.float;
  credit_balance : Float.float;
  formatted_debit : string;
  formatted_credit : string
}.

End TrialBalanceRow.

(** How a handler ends other than by a plain return: with an alert for
    the browser, or on an exception that nothing in the handler catches. *)
Inductive event :=
| window_alert (msg : string)
| raised (exception : string).

(** [x in l] for a list of strings. *)
Definition mem (x : string) (l : list string) : bool := existsb (String.eqb x) l.

(* ================================================================== *)
(** ** The queries the handlers send *)

Module Query.

(** [select(JournalEntry.account).distinct()]: each account once, in the
    order of its first row. *)
Fixpoint distinct (seen l : list string) : list string :=
  match l with
  | [] => []
  | x :: l' => if mem x seen then distinct seen l' else x :: distinct (x :: seen) l'
  end.

Definition distinct_accounts (db : table) : list string :=
  distinct [] (map JournalEntry.account db).

(** [.where(JournalEntry.account == a)] *)
Definition where_account (a : string) (db : table) : table :=
  filter (fun e => String.eqb (JournalEntry.account e) a) db.

(** [.order_by(JournalEntry.date.desc())]: dates compared as byte strings.
    SQL leaves the order of rows with equal keys to the engine; the sorter
    of SQLite, the engine behind [rx.session], is stable, so such rows stay
    in scan order (ascending [id]).  The model is a stable insertion sort. *)
Fixpoint insert_desc (e : JournalEntry.t) (l : table) : table :=
  match l with
  | [] => [e]
  | y :: l' =>
      if String.ltb (JournalEntry.date e) (JournalEntry.date y)
      then y :: insert_desc e l'
      else e :: l
  end.

Fixpoint order_by_date_desc (l : table) : table :=
  match l with
  | [] => []
  | e :: l' => insert_desc e (order_by_date_desc l')
  end.

(** [.order_by(JournalEntry.id.desc())] *)
Definition order_by_id_desc (l : table) : table := rev l.

End Query.

(* ================================================================== *)
(** ** Writing to the table *)

Module Session.

(** The columns [debit] and [credit] are declared [float], hence NOT NULL.
    SQLite has no NaN: the driver binds a NaN as NULL, so a row that holds
    one breaks the constraint. *)
Definition storable (e : JournalEntry.t) : bool :=
  negb (Float.is_nan (JournalEntry.debit e))
  && negb (Float.is_nan (JournalEntry.credit e)).

(** [session.add] of each row of [rows], then [session.commit()]: the
    rows go to the end of the table, or the commit raises [IntegrityError]
    ([None]) and the session, rolled back, leaves the table as it was. *)
Definition commit (db : table) (rows : list JournalEntry.t) : option table :=
  if forallb storable rows then Some (db ++ rows)%list else None.

End Session.

(* ================================================================== *)
(** ** [LedgerState] *)

Module LedgerState.

Record t := mk {
  selected_account : string;
  ledger_entries : list JournalEntry.t;
  available_accounts : list string
}.

Definition init : t := mk "Cash" [] [].

Definition get_ledger_entries (db : table) (self : t) : t :=
  mk (selected_account self)
     (Query.order_by_date_desc (Query.where_account (selected_account self) db))
     (available_accounts self).

Definition get_accounts (db : table) (self : t) : t :=
  let available := Query.distinct_accounts db in
  let selected :=
    match available with
    | first :: _ =>
        if negb (mem (selected_account self) available) then first
        else selected_account self
    | [] => selected_account self
    end in
  get_ledger_entries db (mk selected (ledger_entries self) available).

Definition account_balance (self : t) : Float.float :=
  let debits := Float.sum (map JournalEntry.debit (ledger_entries self)) in
  let credits := Float.sum (map JournalEntry.credit (ledger_entries self)) in
  Float.sub debits credits.

Definition formatted_balance (self : t) : string :=
  Format.comma_2f (account_balance self).

Definition set_account (account : string) (db : table) (self : t) : t :=
  get_ledger_entries db (mk account (ledger_entries self) (available_accounts self)).

End LedgerState.

(* ================================================================== *)
(** ** [AccountingState] *)

Module AccountingState.

Record t := mk {
  description : string;
  amount : string;
  debit_account : string;
  credit_account : string;
  entries : list JournalEntry.t
}.

Definition init : t := mk "" "0" "Cash" "Sales Revenue" [].

Definition load_entries (db : table) (self : t) : t :=
  mk (description self) (amount self) (debit_account self) (credit_account self)
     (Query.order_by_id_desc db).

(** [current_date] is what [datetime.now().strftime("%Y-%m-%d %H:%M")]
    returns when the handler runs.  The result is the table after the
    handler, the state after it, and how the handler ended: [None] for a
    plain return, an alert, or the exception of a failed commit, which
    [except ValueError] does not catch and which comes before the form is
    reset. *)
Definition add_transaction (current_date : string) (db : table) (self : t)
  : table * t * option event :=
  match FloatParse.float_of_string (amount self) with
  | None => (db, self, Some (window_alert "Invalid Amount"))
  | Some amt =>
      if Float.leb amt Float.zero then
        (db, self, Some (window_alert "Amount must be positive."))
      else
        let debit_entry :=
          JournalEntry.mk current_date (description self) (debit_account self)
                          "Debit" amt Float.zero in
        let credit_entry :=
          JournalEntry.mk current_date (description self) (credit_account self)
                          "Credit" Float.zero amt in
        match Session.commit db [debit_entry; credit_entry] with
        | None => (db, self, Some (raised "IntegrityError"))
        | Some db' =>
            (db',
             load_entries db' (mk "" "0" (debit_account self) (credit_account self)
                                  (entries self)),
             None)
        end
  end.

Definition total_balance (self : t) : Float.float :=
  let total_dr := Float.sum (map JournalEntry.debit (entries self)) in
  let total_cr := Float.sum (map JournalEntry.credit (entries self)) in
  Float.sub total_dr total_cr.

End AccountingState.

(* ================================================================== *)
(** ** [TrialBalanceState] *)

(** A Python [dict] from account names to floats: an association list with
    one pair per key, in the order the keys were first inserted. *)
Module Dict.

Definition t := list (string * Float.float).

Fixpoint get (k : string) (m : t) : option Float.float :=
  match m with
  | [] => None
  | (k', v) :: m' => if String.eqb k k' then Some v else get k m'
  end.

Definition contains (k : string) (m : t) : bool :=
  match get k m with Some _ => true | None => false end.

(** [m[k] = v]: replaces the value in place, or appends a new key. *)
Fixpoint set (k : string) (v : Float.float) (m : t) : t :=
  match m with
  | [] => [(k, v)]
  | (k', v') :: m' =>
      if String.eqb k k' then (k, v) :: m' else (k', v') :: set k v m'
  end.

End Dict.

Module TrialBalanceState.

Record t := mk {
  rows : list TrialBalanceRow.t;
  total_dr : Float.float;
  total_cr : Float.float
}.

Definition init : t := mk [] Float.zero Float.zero.

(** Body of the first loop: one entry into [account_map]. *)
Definition aggregate (account_map : Dict.t) (entry : JournalEntry.t) : Dict.t :=
  let account_map :=
    if negb (Dict.contains (JournalEntry.account entry) account_map)
    then Dict.set (JournalEntry.account entry) Float.zero account_map
    else account_map in
  match Dict.get (JournalEntry.account entry) account_map with
  | Some net =>
      Dict.set (JournalEntry.account entry)
               (Float.add net (Float.sub (JournalEntry.debit entry)
                                         (JournalEntry.credit entry)))
               account_map
  | None => account_map (* no KeyError: the key was inserted just above *)
  end.

Definition account_map_of (all_entries : table) : Dict.t :=
  fold_left aggregate all_entries [].

(** Body of the second loop: one item of [account_map] into
    [(new_rows, t_dr, t_cr)]. *)
Definition emit (acc : list TrialBalanceRow.t * Float.float * Float.float)
                (item : string * Float.float)
  : list TrialBalanceRow.t * Float.float * Float.float :=
  let '(new_rows, t_dr, t_cr) := acc in
  let '(account, net_bal) := item in
  if Float.ltb (Float.abs net_bal) Float.c0_01 then acc
  else
    let dr := if Float.ltb Float.zero net_bal then net_bal else Float.zero in
    let cr := if Float.ltb net_bal Float.zero then Float.abs net_bal
              else Float.zero in
    ((new_rows ++ [TrialBalanceRow.mk account dr cr
                     (Format.comma_2f dr) (Format.comma_2f cr)])%list,
     Float.add t_dr dr,
     Float.add t_cr cr).

Definition calculate_trial_balance (db : table) (self : t) : t :=
  let all_entries := db in
  let account_map := account_map_of all_entries in
  let '(new_rows, t_dr, t_cr) :=
    fold_left emit account_map ([], Float.zero, Float.zero) in
  mk new_rows t_dr t_cr.

Definition is_balanced (self : t) : bool :=
  Float.ltb (Float.abs (Float.sub (total_dr self) (total_cr self))) Float.c0_01.



End TrialBalanceState.

(* ================================================================== *)
(** ** Running postings *)

(** One use of the form: the fields are typed in, then the button is
    pressed at the minute [p_date]. *)
Record posting := {
  p_date : string;
  p_description : string;
  p_amount : string;
  p_debit : string;
  p_credit : string
}.

Definition post (st : table * AccountingState.t) (p : posting)
  : table * AccountingState.t :=
  let '(db, self) := st in
  fst (AccountingState.add_transaction (p_date p) db
         (AccountingState.mk (p_description p) (p_amount p) (p_debit p)
                             (p_credit p) (AccountingState.entries self))).

Definition post_all (ps : list posting) : table :=
  fst (fold_left post ps ([], AccountingState.init)).

(** The trial balance page opened on a table. *)
Definition trial_balance (db : table) : TrialBalanceState.t :=
  TrialBalanceState.calculate_trial_balance db TrialBalanceState.init.

(** The ledger page showing account [a]. *)
Definition entries_for (a : string) (db : table) : list JournalEntry.t :=
  LedgerState.ledger_entries (LedgerState.set_account a db LedgerState.init).

(** The shape the data model asks of a stored row. *)
Definition entry_ok (e : JournalEntry.t) : bool :=
  Float.leb Float.zero (JournalEntry.debit e)
  && Float.leb Float.zero (JournalEntry.credit e)
  && (SFeqb (JournalEntry.debit e) Float.zero
      || String.eqb (JournalEntry.category e) "Debit")
  && (SFeqb (JournalEntry.credit e) Float.zero
      || String.eqb (JournalEntry.category e) "Credit").

(* ================================================================== *)
(** ** Vocabulary of the properties *)

(** [x] may stand before [y] in a list sorted by date, descending. *)
Definition date_ge (x y : JournalEntry.t) : Prop :=
  String.leb (JournalEntry.date y) (JournalEntry.date x) = true.

Definition date_is (d : string) (e : JournalEntry.t) : bool :=
  String.eqb (JournalEntry.date e) d.

(** The tie rule of C6 as it is worded: rows of account [a] with the same
    date come out in reverse insertion order. *)
Definition ties_reversed (a : string) (db : table) : Prop :=
  forall d, filter (date_is d) (entries_for a db)
            = rev (filter (date_is d) (Query.where_account a db)).

Definition two_sales_in_a_minute : list posting :=
  [Build_posting "2024-05-01 09:30" "First sale" "10" "Cash" "Sales Revenue";
   Build_posting "2024-05-01 09:30" "Second sale" "20" "Cash" "Sales Revenue"].

(** One step of a running net: [net += debit - credit]. *)
Definition net_step (net : Float.float) (e : JournalEntry.t) : Float.float :=
  Float.add net (Float.sub (JournalEntry.debit e) (JournalEntry.credit e)).

(** The net of account [a]: [debit - credit] summed over the rows of [a],
    in table order, from 0. *)
Definition net_of (a : string) (db : table) : Float.float :=
  fold_left net_step (Query.where_account a db) Float.zero.

(** The test that drops an account from the report. *)
Definition suppressed (net : Float.float) : bool :=
  Float.ltb (Float.abs net) Float.c0_01.

Definition dr_of (net : Float.float) : Float.float :=
  if Float.ltb Float.zero net then net else Float.zero.

Definition cr_of (net : Float.float) : Float.float :=
  if Float.ltb net Float.zero then Float.abs net else Float.zero.

Definition row_of (item : string * Float.float) : TrialBalanceRow.t :=
  TrialBalanceRow.mk (fst item) (dr_of (snd item)) (cr_of (snd item))
                     (Format.comma_2f (dr_of (snd item)))
                     (Format.comma_2f (cr_of (snd item))).

Definition kept (item : string * Float.float) : bool := negb (suppressed (snd item)).

Definition has_row (a : string) (tb : TrialBalanceState.t) : Prop :=
  exists r, In r (TrialBalanceState.rows tb) /\ TrialBalanceRow.account r = a.

Definition default_zero (o : option Float.float) : Float.float :=
  match o with Some v => v | None => Float.zero end.

(** The row rule of C3 as it is worded: a row exactly for the accounts
    with [abs(net) >= 0.01]. *)
Definition rows_exactly_from_threshold (db : table) : Prop :=
  forall a, has_row a (trial_balance db)
            <-> Float.leb Float.c0_01 (Float.abs (net_of a db)) = true.

(** An amount that overflows to infinity, moved from Cash to Cash. *)
Definition overflowing_transfer : list posting :=
  [Build_posting "2024-05-01 09:30" "Transfer" "1e999" "Cash" "Cash"].

(** Number of bits of [p]. *)
Definition dg (p : positive) : Z := Zpos (digits2_pos p).

(** [p * 2^k] *)
Definition shift (p : positive) (k : nat) : positive := Pos.shiftl_nat p k.

(** The binary64 representation of the integer [±p], [p < 2^53]: the
    mantissa takes 53 bits. *)
Definition canon (s : bool) (p : positive) : Float.float :=
  S754_finite s (shift p (Z.to_nat (53 - dg p))) (dg p - 53).

(** The integer an integer-valued float stands for. *)
Definition to_Z (x : Float.float) : Z :=
  match x with
  | S754_finite s m e => cond_Zopp s (Z.shiftl (Zpos m) e)
  | _ => 0
  end.

Definition zsum (l : list Z) : Z := fold_right Z.add 0 l.

Definition zdebit (e : JournalEntry.t) : Z := to_Z (JournalEntry.debit e).
Definition zcredit (e : JournalEntry.t) : Z := to_Z (JournalEntry.credit e).

(** A row whose debit and credit are whole, non-negative numbers. *)
Definition whole_entry (e : JournalEntry.t) : Prop :=
  JournalEntry.debit e = Float.of_Z (zdebit e)
  /\ JournalEntry.credit e = Float.of_Z (zcredit e)
  /\ 0 <= zdebit e /\ 0 <= zcredit e.

Definition sum_debits (db : table) : Z := zsum (map zdebit db).
Definition sum_credits (db : table) : Z := zsum (map zcredit db).

(** The net of account [a] over the integers. *)
Definition znet (a : string) (db : table) : Z :=
  sum_debits (Query.where_account a db) - sum_credits (Query.where_account a db).

(** The amount of posting [p] is the whole number [n], 0 < n < 2^53. *)
Definition whole_amount (p : posting) (n : Z) : Prop :=
  0 < n < 2 ^ 53
  /\ FloatParse.float_of_string (p_amount p) = Some (Float.of_Z n).

(** The two rows a posting of the whole amount [n] stores. *)
Definition legs (pn : posting * Z) : table :=
  [JournalEntry.mk (p_date (fst pn)) (p_description (fst pn)) (p_debit (fst pn))
                   "Debit" (Float.of_Z (snd pn)) Float.zero;
   JournalEntry.mk (p_date (fst pn)) (p_description (fst pn)) (p_credit (fst pn))
                   "Credit" Float.zero (Float.of_Z (snd pn))].

(** What the postings did to account [a]: [+n] where [a] was debited,
    [-n] where it was credited. *)
Definition posting_net (a : string) (pns : list (posting * Z)) : Z :=
  zsum (map (fun pn =>
               (if String.eqb (p_debit (fst pn)) a then snd pn else 0)
               - (if String.eqb (p_credit (fst pn)) a then snd pn else 0)) pns).

(** A posting the poster accepts as C1 words it: the amount parses and
    is > 0. *)
Definition valid_posting (p : posting) : Prop :=
  exists amt, FloatParse.float_of_string (p_amount p) = Some amt
              /\ Float.ltb Float.zero amt = true.



Definition three_dimes : list posting :=
  [Build_posting "2024-05-01 09:30" "Stamps" "0.1" "Cash" "Sales Revenue";
   Build_posting "2024-05-01 09:31" "Stamps" "0.2" "Cash" "Bank Loan";
   Build_posting "2024-05-01 09:32" "Stamps" "0.3" "Supplies" "Bank Loan"].

(** C5 as it is worded, for postings [ps] of the whole amounts [ns]. *)
Definition balance_is_posting_net (ps : list posting) (ns : list Z) : Prop :=
  Forall2 whole_amount ps ns ->
  forall a,
    LedgerState.account_balance (LedgerState.set_account a (post_all ps) LedgerState.init)
    = Float.of_Z (posting_net a (combine ps ns)).

Definition large_postings : list posting :=
  [Build_posting "2024-05-01 09:30" "Loan received" "9007199254740991" "Cash" "Bank Loan";
   Build_posting "2024-05-01 09:30" "Sold Widget" "2" "Cash" "Sales Revenue";
   Build_posting "2024-05-01 09:30" "Machine" "9007199254740991" "Equipment" "Cash"].

Definition large_amounts : list Z := [2 ^ 53 - 1; 2; 2 ^ 53 - 1].

(** The table and the form state after the postings [ps], from an empty
    table and a fresh form. *)
Definition run_posts (ps : list posting) : table * AccountingState.t :=
  fold_left post ps ([], AccountingState.init).

(** A table made of pairs: a debit leg followed by its credit leg, with
    the same date, description and amount, the amount not [<= 0]. *)
Inductive Paired : table -> Prop :=
| Paired_nil : Paired []
| Paired_legs (db : table) (date description debit_account credit_account : string)
              (amt : Float.float) :
    Paired db ->
    Float.leb amt Float.zero = false ->
    Paired (db ++ [JournalEntry.mk date description debit_account "Debit"
                                   amt Float.zero;
                   JournalEntry.mk date description credit_account "Credit"
                                   Float.zero amt])%list.

(** Floats that are not negative: +0, positive numbers, +inf, and NaN. *)
Definition sign_ok (x : Float.float) : bool :=
  match x with
  | S754_zero s | S754_infinity s | S754_finite s _ _ => negb s
  | S754_nan => true
  end.

Definition is_finite (x : Float.float) : bool :=
  match x with
  | S754_zero _ | S754_finite _ _ _ => true
  | _ => false
  end.


(** The amount of posting [p] does not read as NaN. *)
Definition not_nan_amount (p : posting) : Prop :=
  FloatParse.float_of_string (p_amount p) <> Some Float.nan.

(* ================================================================== *)
(** * Properties *)

Example parse_100 :
  FloatParse.float_of_string "100" = Some (Float.of_Z 100).
Proof. vm_compute. reflexivity. Qed.

Example parse_abc : FloatParse.float_of_string "abc" = None.
Proof. reflexivity. Qed.

(** Arabic-Indic one, two, three between two no-break spaces reads as 123;
    the ASCII control character 28 is not stripped. *)
Example parse_unicode_digits :
  FloatParse.float_of_string
    (string_of_list_ascii
       (map ascii_of_nat [194; 160; 217; 161; 217; 162; 217; 163; 194; 160]%nat))
  = Some (Float.of_Z 123).
Proof. vm_compute. reflexivity. Qed.

Example parse_control_character :
  FloatParse.float_of_string (String (ascii_of_nat 28) "1") = None.
Proof. vm_compute. reflexivity. Qed.

(** The amount "nan" passes the test [amt <= 0] and fails at the commit:
    nothing is stored and the form keeps what was typed. *)
Example post_nan :
  AccountingState.add_transaction "2024-05-01 09:30" []
    (AccountingState.mk "Sold Widget" "nan" "Cash" "Sales Revenue" [])
  = ([], AccountingState.mk "Sold Widget" "nan" "Cash" "Sales Revenue" [],
     Some (raised "IntegrityError")).
Proof. vm_compute. reflexivity. Qed.

Example format_1200_5 :
  option_map Format.comma_2f (FloatParse.float_of_string "1200.5")
  = Some "1,200.50".
Proof. vm_compute. reflexivity. Qed.

(** The scenarios of the specification, run on the model. *)
Example scenario_sold_widget :
  let db := post_all [Build_posting "2024-05-01 09:30" "Sold Widget" "100"
                                    "Cash" "Sales Revenue"] in
  List.length db = 2%nat
  /\ map JournalEntry.debit (entries_for "Cash" db) = [Float.of_Z 100]
  /\ trial_balance db
     = TrialBalanceState.mk
         [TrialBalanceRow.mk "Cash" (Float.of_Z 100) Float.zero "100.00" "0.00";
          TrialBalanceRow.mk "Sales Revenue" Float.zero (Float.of_Z 100)
                             "0.00" "100.00"]
         (Float.of_Z 100) (Float.of_Z 100)
  /\ TrialBalanceState.is_balanced (trial_balance db) = true.
Proof. vm_compute. repeat split. Qed.

Example scenario_cash_70 :
  let db := post_all
              [Build_posting "2024-05-01 09:30" "Loan" "50" "Cash" "Bank Loan";
               Build_posting "2024-05-01 09:31" "Loan" "50" "Cash" "Bank Loan";
               Build_posting "2024-05-01 09:32" "Paper" "30" "Supplies" "Cash"] in
  net_of "Cash" db = Float.of_Z 70
  /\ In (TrialBalanceRow.mk "Cash" (Float.of_Z 70) Float.zero "70.00" "0.00")
        (TrialBalanceState.rows (trial_balance db)).
Proof. vm_compute. split; [reflexivity | left; reflexivity]. Qed.

Example scenario_rejected_amounts :
  post_all [Build_posting "2024-05-01 09:30" "Sold Widget" "abc"
                          "Cash" "Sales Revenue";
            Build_posting "2024-05-01 09:31" "Sold Widget" "-5"
                          "Cash" "Sales Revenue"]
  = [].
Proof. vm_compute. reflexivity. Qed.

(** ** Comparisons with zero *)

Lemma ltb_zero_not_leb (x : Float.float) :
  Float.ltb Float.zero x = true -> Float.leb x Float.zero = false.
Proof. destruct x as [[]|[]| |[] m e]; cbv; congruence. Qed.

Lemma ltb_zero_not_nan (x : Float.float) :
  Float.ltb Float.zero x = true -> Float.is_nan x = false.
Proof. destruct x as [[]|[]| |[] m e]; cbv; congruence. Qed.

Lemma not_leb_zero_cases (x : Float.float) :
  Float.leb x Float.zero = false ->
  x = Float.nan \/ Float.ltb Float.zero x = true.
Proof. destruct x as [[]|[]| |[] m e]; cbv; auto; discriminate. Qed.

(** ** The Transaction Poster *)

Section Poster.

Import AccountingState.

Variables (now : string) (db : table) (self : AccountingState.t).

Lemma add_transaction_invalid :
  FloatParse.float_of_string (amount self) = None ->
  add_transaction now db self = (db, self, Some (window_alert "Invalid Amount")).
Proof. unfold add_transaction. intros ->. reflexivity. Qed.

Lemma add_transaction_non_positive (amt : Float.float) :
  FloatParse.float_of_string (amount self) = Some amt ->
  Float.leb amt Float.zero = true ->
  add_transaction now db self
  = (db, self, Some (window_alert "Amount must be positive.")).
Proof. unfold add_transaction. intros -> ->. reflexivity. Qed.

Lemma add_transaction_raises :
  FloatParse.float_of_string (amount self) = Some Float.nan ->
  add_transaction now db self = (db, self, Some (raised "IntegrityError")).
Proof. unfold add_transaction. intros ->. reflexivity. Qed.

Lemma add_transaction_accepted (amt : Float.float) :
  FloatParse.float_of_string (amount self) = Some amt ->
  Float.leb amt Float.zero = false ->
  Float.is_nan amt = false ->
  add_transaction now db self
  = ((db ++ [JournalEntry.mk now (description self) (debit_account self)
                             "Debit" amt Float.zero;
             JournalEntry.mk now (description self) (credit_account self)
                             "Credit" Float.zero amt])%list,
     mk "" "0" (debit_account self) (credit_account self)
        (Query.order_by_id_desc
           (db ++ [JournalEntry.mk now (description self) (debit_account self)
                                   "Debit" amt Float.zero;
                   JournalEntry.mk now (description self) (credit_account self)
                                   "Credit" Float.zero amt])%list),
     None).
Proof.
  unfold add_transaction, Session.commit, Session.storable.
  intros -> -> Hnan. cbn [forallb JournalEntry.debit JournalEntry.credit].
  rewrite Hnan. reflexivity.
Qed.

End Poster.

(** C2: a successful post (the amount parses and is > 0) appends exactly
    two rows: the debit leg (category "Debit", the debit account, debit =
    amount, credit = 0) and the credit leg (category "Credit", the credit
    account, debit = 0, credit = amount), with the same description and
    the same timestamp. *)
Theorem post_appends_debit_and_credit_leg
    (now : string) (db : table) (self : AccountingState.t) (amt : Float.float) :
  FloatParse.float_of_string (AccountingState.amount self) = Some amt ->
  Float.ltb Float.zero amt = true ->
  fst (fst (AccountingState.add_transaction now db self))
  = (db ++ [JournalEntry.mk now (AccountingState.description self)
                            (AccountingState.debit_account self)
                            "Debit" amt Float.zero;
            JournalEntry.mk now (AccountingState.description self)
                            (AccountingState.credit_account self)
                            "Credit" Float.zero amt])%list
  /\ snd (AccountingState.add_transaction now db self) = None.
Proof.
  intros Hparse Hpos.
  rewrite (add_transaction_accepted now db self amt Hparse
             (ltb_zero_not_leb amt Hpos) (ltb_zero_not_nan amt Hpos)).
  split; reflexivity.
Qed.

Lemma post_appends_debit_and_credit_leg_witness :
  fst (fst (AccountingState.add_transaction "2024-05-01 09:30" []
              (AccountingState.mk "Sold Widget" "100" "Cash" "Sales Revenue" [])))
  = [JournalEntry.mk "2024-05-01 09:30" "Sold Widget" "Cash" "Debit"
                     (Float.of_Z 100) Float.zero;
     JournalEntry.mk "2024-05-01 09:30" "Sold Widget" "Sales Revenue" "Credit"
                     Float.zero (Float.of_Z 100)]
  /\ snd (AccountingState.add_transaction "2024-05-01 09:30" []
            (AccountingState.mk "Sold Widget" "100" "Cash" "Sales Revenue" []))
     = None.
Proof.
  apply (post_appends_debit_and_credit_leg "2024-05-01 09:30" []
           (AccountingState.mk "Sold Widget" "100" "Cash" "Sales Revenue" [])
           (Float.of_Z 100)).
  - vm_compute. reflexivity.
  - vm_compute. reflexivity.
Defined.



(** C9: a failed post (amount not parseable, or parsed amount <= 0) keeps
    the form fields [description] and [amount] as they were; a successful
    post (the amount parses and is > 0) sets [description] to the empty
    string and [amount] to "0"; and only a successful post does: however
    else the handler ends, with an alert or on the exception of a failed
    commit, both fields are what they were. *)
Theorem form_fields_after_post
    (now : string) (db : table) (self : AccountingState.t) :
  let self' := snd (fst (AccountingState.add_transaction now db self)) in
  ((FloatParse.float_of_string (AccountingState.amount self) = None
    \/ exists amt,
         FloatParse.float_of_string (AccountingState.amount self) = Some amt
         /\ Float.leb amt Float.zero = true) ->
   AccountingState.description self' = AccountingState.description self
   /\ AccountingState.amount self' = AccountingState.amount self)
  /\
  ((exists amt,
      FloatParse.float_of_string (AccountingState.amount self) = Some amt
      /\ Float.ltb Float.zero amt = true) ->
   AccountingState.description self' = ""
   /\ AccountingState.amount self' = "0")
  /\
  (snd (AccountingState.add_transaction now db self) <> None ->
   AccountingState.description self' = AccountingState.description self
   /\ AccountingState.amount self' = AccountingState.amount self).
Proof.
  cbv zeta. split; [|split].
  - intros [Hnone | [amt [Hsome Hle]]].
    + rewrite (add_transaction_invalid now db self Hnone).
      split; reflexivity.
    + rewrite (add_transaction_non_positive now db self amt Hsome Hle).
      split; reflexivity.
  - intros [amt [Hsome Hpos]].
    rewrite (add_transaction_accepted now db self amt Hsome
               (ltb_zero_not_leb amt Hpos) (ltb_zero_not_nan amt Hpos)).
    split; reflexivity.
  - destruct (FloatParse.float_of_string (AccountingState.amount self))
      as [amt|] eqn:Hparse.
    + destruct (Float.leb amt Float.zero) eqn:Hle.
      * rewrite (add_transaction_non_positive now db self amt Hparse Hle).
        split; reflexivity.
      * destruct (not_leb_zero_cases amt Hle) as [-> | Hpos].
        -- rewrite (add_transaction_raises now db self Hparse).
           split; reflexivity.
        -- rewrite (add_transaction_accepted now db self amt Hparse Hle
                      (ltb_zero_not_nan amt Hpos)).
           intros Hev. now elim Hev.
    + rewrite (add_transaction_invalid now db self Hparse).
      split; reflexivity.
Qed.

Lemma form_fields_after_post_witness :
  (let self' :=
     snd (fst (AccountingState.add_transaction "2024-05-01 09:30" []
                 (AccountingState.mk "Refund" "-5" "Cash" "Sales Revenue" []))) in
   AccountingState.description self' = "Refund"
   /\ AccountingState.amount self' = "-5")
  /\
  (let self' :=
     snd (fst (AccountingState.add_transaction "2024-05-01 09:30" []
                 (AccountingState.mk "Sold Widget" "100" "Cash" "Sales Revenue" []))) in
   AccountingState.description self' = ""
   /\ AccountingState.amount self' = "0")
  /\
  (let self' :=
     snd (fst (AccountingState.add_transaction "2024-05-01 09:30" []
                 (AccountingState.mk "Sold Widget" "nan" "Cash" "Sales Revenue" []))) in
   AccountingState.description self' = "Sold Widget"
   /\ AccountingState.amount self' = "nan").
Proof.
  split; [|split].
  - apply (proj1 (form_fields_after_post "2024-05-01 09:30" []
             (AccountingState.mk "Refund" "-5" "Cash" "Sales Revenue" []))).
    right. exists (Float.of_Z (-5)). split; vm_compute; reflexivity.
  - apply (proj1 (proj2 (form_fields_after_post "2024-05-01 09:30" []
             (AccountingState.mk "Sold Widget" "100" "Cash" "Sales Revenue" [])))).
    exists (Float.of_Z 100). split; vm_compute; reflexivity.
  - apply (proj2 (proj2 (form_fields_after_post "2024-05-01 09:30" []
             (AccountingState.mk "Sold Widget" "nan" "Cash" "Sales Revenue" [])))).
    vm_compute. discriminate.
Defined.

(** ** Stored rows *)

Lemma ltb_zero_leb (x : Float.float) :
  Float.ltb Float.zero x = true -> Float.leb Float.zero x = true.
Proof. destruct x as [[]|[]| |[] m e]; cbv; congruence. Qed.

(** Both rows of a post whose amount is > 0 have the shape of the data
    model. *)
Lemma positive_amount_rows_ok
    (now : string) (db : table) (self : AccountingState.t) (amt : Float.float) :
  FloatParse.float_of_string (AccountingState.amount self) = Some amt ->
  Float.ltb Float.zero amt = true ->
  exists e1 e2,
    fst (fst (AccountingState.add_transaction now db self)) = (db ++ [e1; e2])%list
    /\ entry_ok e1 = true /\ entry_ok e2 = true.
Proof.
  intros Hparse Hpos.
  rewrite (add_transaction_accepted now db self amt Hparse
             (ltb_zero_not_leb amt Hpos) (ltb_zero_not_nan amt Hpos)).
  eexists; eexists; split; [reflexivity|].
  unfold entry_ok; simpl.
  rewrite (ltb_zero_leb amt Hpos), !orb_true_r.
  split; reflexivity.
Qed.

(** Whatever the amount, the rows one call appends have that shape: an
    amount that is NaN passes the test [amt <= 0] but its rows are refused
    at the commit. *)
Lemma add_transaction_rows_ok
    (now : string) (db : table) (self : AccountingState.t) :
  exists added,
    fst (fst (AccountingState.add_transaction now db self)) = (db ++ added)%list
    /\ forallb entry_ok added = true.
Proof.
  destruct (FloatParse.float_of_string (AccountingState.amount self))
    as [amt|] eqn:Hparse.
  - destruct (Float.leb amt Float.zero) eqn:Hle.
    + rewrite (add_transaction_non_positive now db self amt Hparse Hle).
      exists []. split; [symmetry; apply app_nil_r | reflexivity].
    + destruct (not_leb_zero_cases amt Hle) as [-> | Hpos].
      * rewrite (add_transaction_raises now db self Hparse).
        exists []. split; [symmetry; apply app_nil_r | reflexivity].
      * destruct (positive_amount_rows_ok now db self amt Hparse Hpos)
          as [e1 [e2 [Hrows [H1 H2]]]].
        exists [e1; e2]. split; [exact Hrows|].
        cbn [forallb]. now rewrite H1, H2.
  - rewrite (add_transaction_invalid now db self Hparse).
    exists []. split; [symmetry; apply app_nil_r | reflexivity].
Qed.

Lemma fold_post_rows_ok (ps : list posting) (st : table * AccountingState.t) :
  forallb entry_ok (fst st) = true ->
  forallb entry_ok (fst (fold_left post ps st)) = true.
Proof.
  revert st. induction ps as [|p ps IH]; intros [db self] Hdb; [exact Hdb|].
  cbn [fold_left]. apply IH. unfold post.
  destruct (add_transaction_rows_ok (p_date p) db
              (AccountingState.mk (p_description p) (p_amount p) (p_debit p)
                                  (p_credit p) (AccountingState.entries self)))
    as [added [Hrows Hok]].
  destruct (AccountingState.add_transaction _ _ _) as [[db' self'] ev].
  cbn [fst] in Hrows |- *. cbn [fst] in Hdb.
  now rewrite Hrows, forallb_app, Hdb, Hok.
Qed.

(** C7: every row ever stored has a non-negative [debit] that is nonzero
    only for category "Debit" and a non-negative [credit] that is nonzero
    only for category "Credit": the rows any call of the poster adds to
    the table have that shape, for every amount string, and so has every
    row of the table after any run of postings. *)
Theorem stored_rows_have_model_shape :
  (forall now db self,
     exists added,
       fst (fst (AccountingState.add_transaction now db self)) = (db ++ added)%list
       /\ forallb entry_ok added = true)
  /\ (forall ps, forallb entry_ok (post_all ps) = true).
Proof.
  split.
  - apply add_transaction_rows_ok.
  - intros ps. unfold post_all.
    now apply (fold_post_rows_ok ps ([], AccountingState.init)).
Qed.

(** ** Recomputing the trial balance *)

(** C8: computing the trial balance twice on the same table, with no post
    in between, gives the same rows (same accounts, same order, same
    balances) and the same totals: the handler rebuilds rows and totals
    from the table and keeps nothing of the previous run. *)
Theorem calculate_trial_balance_twice (db : table) (self : TrialBalanceState.t) :
  let once := TrialBalanceState.calculate_trial_balance db self in
  let twice := TrialBalanceState.calculate_trial_balance db once in
  TrialBalanceState.rows twice = TrialBalanceState.rows once
  /\ TrialBalanceState.total_dr twice = TrialBalanceState.total_dr once
  /\ TrialBalanceState.total_cr twice = TrialBalanceState.total_cr once.
Proof.
  cbv zeta. unfold TrialBalanceState.calculate_trial_balance.
  destruct (fold_left TrialBalanceState.emit _ _) as [[new_rows t_dr] t_cr].
  repeat split.
Qed.

(** ** The ledger page *)

Lemma mem_In (x : string) (l : list string) : mem x l = true <-> In x l.
Proof.
  unfold mem. rewrite existsb_exists. split.
  - intros [y [Hy Heq]]. apply String.eqb_eq in Heq. now subst.
  - intros H. exists x. split; [assumption | apply String.eqb_refl].
Qed.

Lemma mem_false (x : string) (l : list string) : mem x l = false <-> ~ In x l.
Proof.
  rewrite <- mem_In. destruct (mem x l); split; congruence.
Qed.

(** C10: after [get_accounts], when the list of distinct accounts is not
    empty and the previously selected account does not occur in it, the
    selected account is the first account of the list; in every case the
    ledger entries are those loaded for the resulting selected account. *)
Theorem get_accounts_selects_and_reloads (db : table) (self : LedgerState.t) :
  let self' := LedgerState.get_accounts db self in
  LedgerState.available_accounts self' = Query.distinct_accounts db
  /\ (forall first rest,
        Query.distinct_accounts db = first :: rest ->
        ~ In (LedgerState.selected_account self) (first :: rest) ->
        LedgerState.selected_account self' = first)
  /\ LedgerState.ledger_entries self'
     = Query.order_by_date_desc
         (Query.where_account (LedgerState.selected_account self') db).
Proof.
  cbv zeta. unfold LedgerState.get_accounts, LedgerState.get_ledger_entries.
  split; [reflexivity | split; [| reflexivity]].
  intros first rest Heq Hnotin. rewrite Heq.
  apply mem_false in Hnotin. cbn [LedgerState.selected_account].
  rewrite Hnotin. reflexivity.
Qed.

Lemma get_accounts_selects_and_reloads_witness :
  LedgerState.selected_account
    (LedgerState.get_accounts
       [JournalEntry.mk "2024-05-01 09:30" "Loan" "Equipment" "Debit"
                        (Float.of_Z 7) Float.zero;
        JournalEntry.mk "2024-05-01 09:30" "Loan" "Bank Loan" "Credit"
                        Float.zero (Float.of_Z 7)]
       LedgerState.init)
  = "Equipment".
Proof.
  apply (proj1 (proj2 (get_accounts_selects_and_reloads
           [JournalEntry.mk "2024-05-01 09:30" "Loan" "Equipment" "Debit"
                            (Float.of_Z 7) Float.zero;
            JournalEntry.mk "2024-05-01 09:30" "Loan" "Bank Loan" "Credit"
                            Float.zero (Float.of_Z 7)]
           LedgerState.init)) "Equipment" ["Bank Loan"]).
  - reflexivity.
  - simpl. intros [H | [H | []]]; discriminate H.
Defined.

(** ** Ordering of the ledger entries *)

Section DateOrder.

Lemma string_compare_refl (a : string) : String.compare a a = Eq.
Proof. now apply OrderedTypeEx.String_as_OT.cmp_eq. Qed.

Lemma string_leb_trans (a b c : string) :
  String.leb a b = true -> String.leb b c = true -> String.leb a c = true.
Proof.
  unfold String.leb.
  destruct (String.compare a b) eqn:Hab; try discriminate;
    destruct (String.compare b c) eqn:Hbc; try discriminate; intros _ _.
  - apply String.compare_eq_iff in Hab, Hbc. subst.
    now rewrite string_compare_refl.
  - apply String.compare_eq_iff in Hab. subst. now rewrite Hbc.
  - apply String.compare_eq_iff in Hbc. subst. now rewrite Hab.
  - apply OrderedTypeEx.String_as_OT.cmp_lt in Hab, Hbc.
    pose proof (OrderedTypeEx.String_as_OT.lt_trans _ _ _ Hab Hbc) as Hac.
    apply OrderedTypeEx.String_as_OT.cmp_lt in Hac.
    unfold OrderedTypeEx.String_as_OT.cmp in Hac. now rewrite Hac.
Qed.

Lemma string_ltb_false_leb (a b : string) :
  String.ltb a b = false -> String.leb b a = true.
Proof.
  unfold String.ltb, String.leb. rewrite (String.compare_antisym a b).
  destruct (String.compare b a); simpl; congruence.
Qed.

Lemma string_ltb_leb (a b : string) :
  String.ltb a b = true -> String.leb a b = true.
Proof.
  unfold String.ltb, String.leb. destruct (String.compare a b); congruence.
Qed.

Lemma string_ltb_irrefl (a : string) : String.ltb a a = false.
Proof. unfold String.ltb. now rewrite string_compare_refl. Qed.

Lemma insert_desc_perm (e : JournalEntry.t) (l : table) :
  Permutation (Query.insert_desc e l) (e :: l).
Proof.
  induction l as [|y l IH]; simpl.
  - apply Permutation_refl.
  - destruct (String.ltb (JournalEntry.date e) (JournalEntry.date y)).
    + apply perm_trans with (y :: e :: l).
      * now apply perm_skip.
      * apply perm_swap.
    + apply Permutation_refl.
Qed.

Lemma order_by_date_desc_perm (l : table) :
  Permutation (Query.order_by_date_desc l) l.
Proof.
  induction l as [|e l IH]; simpl.
  - apply perm_nil.
  - apply perm_trans with (e :: Query.order_by_date_desc l).
    + apply insert_desc_perm.
    + now apply perm_skip.
Qed.

Lemma insert_desc_sorted (e : JournalEntry.t) (l : table) :
  StronglySorted date_ge l -> StronglySorted date_ge (Query.insert_desc e l).
Proof.
  induction 1 as [|y l Hsorted IH Hall]; simpl.
  - repeat constructor.
  - destruct (String.ltb (JournalEntry.date e) (JournalEntry.date y)) eqn:Hlt.
    + constructor; [exact IH|].
      apply (Permutation_Forall (Permutation_sym (insert_desc_perm e l))).
      constructor; [|exact Hall].
      unfold date_ge. now apply string_ltb_leb.
    + apply string_ltb_false_leb in Hlt.
      constructor; [now constructor|].
      constructor; [exact Hlt|].
      eapply Forall_impl; [|exact Hall].
      intros z Hz. unfold date_ge in *. eapply string_leb_trans; eassumption.
Qed.

Lemma order_by_date_desc_sorted (l : table) :
  StronglySorted date_ge (Query.order_by_date_desc l).
Proof.
  induction l as [|e l IH]; simpl.
  - constructor.
  - now apply insert_desc_sorted.
Qed.

Lemma insert_desc_same_date (d : string) (e : JournalEntry.t) (l : table) :
  filter (date_is d) (Query.insert_desc e l) = filter (date_is d) (e :: l).
Proof.
  induction l as [|y l IH]; [reflexivity|].
  cbn [Query.insert_desc].
  destruct (String.ltb (JournalEntry.date e) (JournalEntry.date y)) eqn:Hlt; [|reflexivity].
  cbn [filter] in *. rewrite IH.
  destruct (date_is d e) eqn:He; [|reflexivity].
  destruct (date_is d y) eqn:Hy; [|reflexivity].
  unfold date_is in He, Hy. apply String.eqb_eq in He, Hy.
  rewrite He, Hy, string_ltb_irrefl in Hlt. discriminate.
Qed.

Lemma order_by_date_desc_stable (d : string) (l : table) :
  filter (date_is d) (Query.order_by_date_desc l) = filter (date_is d) l.
Proof.
  induction l as [|e l IH]; [reflexivity|].
  cbn [Query.order_by_date_desc]. rewrite insert_desc_same_date.
  cbn [filter]. now rewrite IH.
Qed.

End DateOrder.

(** C6, as worded, fails: two sales posted in the same minute are listed
    first-inserted first, not last-inserted first. *)
Lemma ties_not_reversed :
  map JournalEntry.description (entries_for "Cash" (post_all two_sales_in_a_minute))
  = ["First sale"; "Second sale"]
  /\ ~ ties_reversed "Cash" (post_all two_sales_in_a_minute).
Proof.
  split; [vm_compute; reflexivity|].
  intros H. specialize (H "2024-05-01 09:30").
  vm_compute in H. discriminate H.
Qed.

(** C6 (amended): for every account [a], the ledger entries are exactly
    the stored rows whose account is [a], sorted by the date string in
    descending order, and rows with equal date keep their insertion order
    (first-inserted first). *)
Theorem entries_for_filtered_sorted_stable (a : string) (db : table) :
  Permutation (entries_for a db) (Query.where_account a db)
  /\ (forall e, In e (entries_for a db) <-> In e db /\ JournalEntry.account e = a)
  /\ StronglySorted date_ge (entries_for a db)
  /\ (forall d, filter (date_is d) (entries_for a db)
                = filter (date_is d) (Query.where_account a db)).
Proof.
  unfold entries_for, LedgerState.set_account, LedgerState.get_ledger_entries.
  cbn [LedgerState.ledger_entries LedgerState.selected_account].
  split; [apply order_by_date_desc_perm|].
  split; [|split; [apply order_by_date_desc_sorted
                  | intros d; apply order_by_date_desc_stable]].
  intros e. split.
  - intros H.
    apply (Permutation_in _ (order_by_date_desc_perm _)) in H.
    unfold Query.where_account in H. apply filter_In in H.
    destruct H as [H1 H2]. apply String.eqb_eq in H2. now split.
  - intros [H1 H2].
    apply (Permutation_in _ (Permutation_sym (order_by_date_desc_perm _))).
    unfold Query.where_account. apply filter_In. split; [exact H1|].
    now apply String.eqb_eq.
Qed.

(** ** The account map of the trial balance *)

Section AccountMap.

Lemma dict_get_set (a k : string) (v : Float.float) (m : Dict.t) :
  Dict.get a (Dict.set k v m) = if String.eqb a k then Some v else Dict.get a m.
Proof.
  induction m as [|[k' v'] m IH]; simpl.
  - reflexivity.
  - destruct (String.eqb k k') eqn:Hk; simpl.
    + apply String.eqb_eq in Hk. subst k'.
      destruct (String.eqb a k); reflexivity.
    + rewrite IH. destruct (String.eqb a k') eqn:Ha; [|reflexivity].
      apply String.eqb_eq in Ha. subst k'.
      now rewrite String.eqb_sym, Hk.
Qed.

Lemma dict_keys_set (k : string) (v : Float.float) (m : Dict.t) :
  map fst (Dict.set k v m)
  = if Dict.contains k m then map fst m else (map fst m ++ [k])%list.
Proof.
  unfold Dict.contains.
  induction m as [|[k' v'] m IH]; simpl; [reflexivity|].
  destruct (String.eqb k k') eqn:Hk; simpl.
  - apply String.eqb_eq in Hk. now subst.
  - rewrite IH. destruct (Dict.get k m); reflexivity.
Qed.

Lemma dict_contains_keys (k : string) (m : Dict.t) :
  Dict.contains k m = mem k (map fst m).
Proof.
  unfold Dict.contains, mem.
  induction m as [|[k' v'] m IH]; simpl; [reflexivity|].
  destruct (String.eqb k k'); simpl; [reflexivity | exact IH].
Qed.

Lemma dict_set_nodup (k : string) (v : Float.float) (m : Dict.t) :
  NoDup (map fst m) -> NoDup (map fst (Dict.set k v m)).
Proof.
  intros H. rewrite dict_keys_set, dict_contains_keys.
  destruct (mem k (map fst m)) eqn:Hm; [exact H|].
  apply mem_false in Hm.
  apply NoDup_rev in H. rewrite <- (rev_involutive (_ ++ _)%list).
  apply NoDup_rev. rewrite rev_app_distr. simpl.
  constructor; [|exact H]. now rewrite <- in_rev.
Qed.

Lemma dict_in_get (a : string) (v : Float.float) (m : Dict.t) :
  NoDup (map fst m) -> (In (a, v) m <-> Dict.get a m = Some v).
Proof.
  induction m as [|[k' v'] m IH]; simpl; intros Hnd.
  - split; [tauto | discriminate].
  - inversion_clear Hnd as [|? ? Hnotin Hnd'].
    destruct (String.eqb a k') eqn:Ha.
    + apply String.eqb_eq in Ha. subst k'. split.
      * intros [H | H]; [congruence|].
        exfalso. apply Hnotin. apply (in_map fst) in H. exact H.
      * intros H. left. congruence.
    + apply String.eqb_neq in Ha. rewrite <- (IH Hnd'). split.
      * intros [H | H]; [congruence | exact H].
      * intros H. now right.
Qed.

Lemma aggregate_get (a : string) (m : Dict.t) (e : JournalEntry.t) :
  Dict.get a (TrialBalanceState.aggregate m e)
  = if String.eqb a (JournalEntry.account e)
    then Some (net_step (default_zero (Dict.get a m)) e)
    else Dict.get a m.
Proof.
  unfold TrialBalanceState.aggregate, Dict.contains.
  destruct (Dict.get (JournalEntry.account e) m) as [v|] eqn:Hget; simpl.
  - rewrite Hget, dict_get_set.
    destruct (String.eqb a (JournalEntry.account e)) eqn:Ha; [|reflexivity].
    apply String.eqb_eq in Ha. subst a. now rewrite Hget.
  - rewrite dict_get_set, String.eqb_refl, !dict_get_set.
    destruct (String.eqb a (JournalEntry.account e)) eqn:Ha; [|reflexivity].
    apply String.eqb_eq in Ha. subst a. now rewrite Hget.
Qed.

Lemma aggregate_nodup (m : Dict.t) (e : JournalEntry.t) :
  NoDup (map fst m) -> NoDup (map fst (TrialBalanceState.aggregate m e)).
Proof.
  intros H. unfold TrialBalanceState.aggregate.
  destruct (negb _); destruct (Dict.get _ _);
    repeat apply dict_set_nodup; exact H.
Qed.

Lemma fold_aggregate_nodup (es : table) (m : Dict.t) :
  NoDup (map fst m) ->
  NoDup (map fst (fold_left TrialBalanceState.aggregate es m)).
Proof.
  revert m. induction es as [|e es IH]; simpl; intros m H; [exact H|].
  apply IH. now apply aggregate_nodup.
Qed.

(** The value under key [a] after the first loop, from the value before. *)
Lemma fold_aggregate_get (a : string) (es : table) (m : Dict.t) :
  Dict.get a (fold_left TrialBalanceState.aggregate es m)
  = match Query.where_account a es, Dict.get a m with
    | [], o => o
    | l, o => Some (fold_left net_step l (default_zero o))
    end.
Proof.
  revert m. induction es as [|e es IH]; simpl; intros m.
  - reflexivity.
  - rewrite IH, aggregate_get.
    rewrite (String.eqb_sym (JournalEntry.account e) a).
    destruct (String.eqb a (JournalEntry.account e)); simpl.
    + destruct (Query.where_account a es); reflexivity.
    + destruct (Query.where_account a es); [reflexivity|].
      reflexivity.
Qed.

Lemma account_map_get (a : string) (db : table) :
  Dict.get a (TrialBalanceState.account_map_of db)
  = match Query.where_account a db with
    | [] => None
    | _ => Some (net_of a db)
    end.
Proof.
  unfold TrialBalanceState.account_map_of, net_of.
  rewrite fold_aggregate_get. simpl.
  destruct (Query.where_account a db); reflexivity.
Qed.

Lemma account_map_nodup (db : table) :
  NoDup (map fst (TrialBalanceState.account_map_of db)).
Proof. apply fold_aggregate_nodup. constructor. Qed.

(** Every item of the account map pairs an account with its net. *)
Lemma account_map_item (a : string) (v : Float.float) (db : table) :
  In (a, v) (TrialBalanceState.account_map_of db) ->
  v = net_of a db /\ Query.where_account a db <> [].
Proof.
  intros H. apply (dict_in_get a v _ (account_map_nodup db)) in H.
  rewrite account_map_get in H.
  destruct (Query.where_account a db); [discriminate|].
  split; [congruence | discriminate].
Qed.

(** The second loop, in closed form. *)
Lemma fold_emit (items : Dict.t) (rows0 : list TrialBalanceRow.t)
      (d0 c0 : Float.float) :
  fold_left TrialBalanceState.emit items (rows0, d0, c0)
  = ((rows0 ++ map row_of (filter kept items))%list,
     fold_left Float.add (map (fun i => dr_of (snd i)) (filter kept items)) d0,
     fold_left Float.add (map (fun i => cr_of (snd i)) (filter kept items)) c0).
Proof.
  revert rows0 d0 c0.
  induction items as [|[a net] items IH]; intros rows0 d0 c0.
  - simpl. now rewrite app_nil_r.
  - change (fold_left TrialBalanceState.emit ((a, net) :: items) (rows0, d0, c0))
      with (fold_left TrialBalanceState.emit items
              (TrialBalanceState.emit (rows0, d0, c0) (a, net))).
    change (filter kept ((a, net) :: items))
      with (if kept (a, net) then (a, net) :: filter kept items
            else filter kept items).
    assert (Hstep :
      TrialBalanceState.emit (rows0, d0, c0) (a, net)
      = if kept (a, net)
        then ((rows0 ++ [row_of (a, net)])%list,
              Float.add d0 (dr_of net), Float.add c0 (cr_of net))
        else (rows0, d0, c0)).
    { unfold TrialBalanceState.emit, kept, suppressed. simpl.
      destruct (Float.ltb (Float.abs net) Float.c0_01); reflexivity. }
    rewrite Hstep. destruct (kept (a, net)).
    + rewrite IH. simpl. rewrite <- app_assoc. reflexivity.
    + apply IH.
Qed.

Lemma trial_balance_closed_form (db : table) :
  trial_balance db
  = TrialBalanceState.mk
      (map row_of (filter kept (TrialBalanceState.account_map_of db)))
      (fold_left Float.add
         (map (fun i => dr_of (snd i))
              (filter kept (TrialBalanceState.account_map_of db))) Float.zero)
      (fold_left Float.add
         (map (fun i => cr_of (snd i))
              (filter kept (TrialBalanceState.account_map_of db))) Float.zero).
Proof.
  unfold trial_balance, TrialBalanceState.calculate_trial_balance.
  rewrite fold_emit. reflexivity.
Qed.

End AccountMap.

(** ** Rows of the trial balance *)

Lemma SFcompare_antisym (x y : Float.float) :
  SFcompare x y = option_map CompOpp (SFcompare y x).
Proof.
  assert (Hpos : forall p q,
    Pos.compare_cont Eq p q = CompOpp (Pos.compare_cont Eq q p)).
  { intros p q. symmetry. apply (Pos.compare_cont_antisym q p Eq). }
  destruct x as [[]|[]| |[] m e], y as [[]|[]| |[] m' e']; simpl;
    try reflexivity;
    rewrite (Z.compare_antisym e' e); destruct (e' ?= e); simpl;
    try reflexivity;
    rewrite (Hpos m m'); reflexivity.
Qed.

(** Away from NaN, "not < 0.01" is ">= 0.01". *)
Lemma not_suppressed_iff (x : Float.float) :
  x <> Float.nan ->
  (suppressed x = false <-> Float.leb Float.c0_01 (Float.abs x) = true).
Proof.
  intros Hnan. unfold suppressed, Float.ltb, Float.leb, SFltb, SFleb.
  rewrite (SFcompare_antisym Float.c0_01 (Float.abs x)).
  destruct (SFcompare (Float.abs x) Float.c0_01) as [[]|] eqn:Hc; simpl;
    try (split; congruence).
  destruct x as [[]|[]| |[] m e]; try discriminate Hc. now elim Hnan.
Qed.

(** Dropping items of a dict leaves its keys distinct. *)
Lemma kept_keys_nodup (m : Dict.t) :
  NoDup (map fst m) -> NoDup (map fst (filter kept m)).
Proof.
  induction m as [|[k v] m IH]; intros Hkeys; [constructor|].
  cbn [map fst] in Hkeys. apply NoDup_cons_iff in Hkeys.
  destruct Hkeys as [Hfresh Hrest].
  cbn [filter]. destruct (kept (k, v)); [|now apply IH].
  cbn [map fst]. apply NoDup_cons; [|now apply IH].
  intros Hk. apply Hfresh.
  apply in_map_iff in Hk. destruct Hk as [[k' v'] [Hfst Hmem]].
  apply filter_In in Hmem. apply in_map_iff.
  exists (k', v'). split; [exact Hfst | apply Hmem].
Qed.

Lemma trial_balance_row (db : table) (r : TrialBalanceRow.t) :
  In r (TrialBalanceState.rows (trial_balance db)) <->
  r = row_of (TrialBalanceRow.account r, net_of (TrialBalanceRow.account r) db)
  /\ Query.where_account (TrialBalanceRow.account r) db <> []
  /\ suppressed (net_of (TrialBalanceRow.account r) db) = false.
Proof.
  rewrite trial_balance_closed_form. cbn [TrialBalanceState.rows].
  rewrite in_map_iff. split.
  - intros [[a v] [Hr Hin]]. apply filter_In in Hin. destruct Hin as [Hin Hkept].
    apply account_map_item in Hin. destruct Hin as [Hv Hne]. subst v r.
    cbn [row_of fst snd TrialBalanceRow.account].
    repeat split; [exact Hne|].
    unfold kept in Hkept. cbn [snd] in Hkept.
    now destruct (suppressed (net_of a db)).
  - intros [Hr [Hne Hs]].
    exists (TrialBalanceRow.account r, net_of (TrialBalanceRow.account r) db).
    split; [now symmetry|]. apply filter_In. split.
    + apply (dict_in_get _ _ _ (account_map_nodup db)).
      rewrite account_map_get.
      destruct (Query.where_account (TrialBalanceRow.account r) db);
        [now elim Hne | reflexivity].
    + unfold kept. cbn [snd]. now rewrite Hs.
Qed.

(** An account has a row exactly when its net fails the test [< 0.01]. *)
Lemma has_row_iff (a : string) (db : table) :
  has_row a (trial_balance db) <-> suppressed (net_of a db) = false.
Proof.
  unfold has_row. split.
  - intros [r [Hin Ha]]. apply trial_balance_row in Hin. subst a. tauto.
  - intros Hs.
    exists (row_of (a, net_of a db)). split; [|reflexivity].
    apply trial_balance_row. cbn [row_of fst snd TrialBalanceRow.account].
    repeat split; [|exact Hs].
    intros Hnil. unfold net_of in Hs. rewrite Hnil in Hs. discriminate Hs.
Qed.

(** C3, as worded, fails: the net of Cash is inf - inf = NaN, for which
    neither [abs(net) < 0.01] nor [abs(net) >= 0.01] holds; the account is
    not skipped and gets a row with both balances 0. *)
Lemma nan_net_gets_a_row :
  net_of "Cash" (post_all overflowing_transfer) = Float.nan
  /\ TrialBalanceState.rows (trial_balance (post_all overflowing_transfer))
     = [TrialBalanceRow.mk "Cash" Float.zero Float.zero "0.00" "0.00"]
  /\ ~ rows_exactly_from_threshold (post_all overflowing_transfer).
Proof.
  split; [vm_compute; reflexivity|].
  split; [vm_compute; reflexivity|].
  intros H. specialize (H "Cash"). destruct H as [H _].
  assert (Hrow : has_row "Cash" (trial_balance (post_all overflowing_transfer))).
  { apply has_row_iff. vm_compute. reflexivity. }
  apply H in Hrow. vm_compute in Hrow. discriminate Hrow.
Qed.

(** C3 (amended): the aggregator computes, in one pass over all entries,
    net[account] = the sum of (debit - credit) over that account's
    entries; for every account whose net is not NaN it emits a row exactly
    when abs(net) >= 0.01; a row has debit_balance = net and
    credit_balance = 0 when net > 0, and debit_balance = 0 and
    credit_balance = abs(net) when net < 0; no account has two rows; an
    account whose net is exactly 0.005 has no row; on an empty table there
    are no rows, the totals are 0 and the report is balanced. *)
Theorem trial_balance_rows_from_nets (db : table) :
  (forall a net,
     In (a, net) (TrialBalanceState.account_map_of db) -> net = net_of a db)
  /\ (forall a,
        net_of a db <> Float.nan ->
        (has_row a (trial_balance db)
         <-> Float.leb Float.c0_01 (Float.abs (net_of a db)) = true))
  /\ (forall r,
        In r (TrialBalanceState.rows (trial_balance db)) ->
        let net := net_of (TrialBalanceRow.account r) db in
        (Float.ltb Float.zero net = true ->
         TrialBalanceRow.debit_balance r = net
         /\ TrialBalanceRow.credit_balance r = Float.zero)
        /\ (Float.ltb net Float.zero = true ->
            TrialBalanceRow.debit_balance r = Float.zero
            /\ TrialBalanceRow.credit_balance r = Float.abs net))
  /\ NoDup (map TrialBalanceRow.account (TrialBalanceState.rows (trial_balance db)))
  /\ (forall a,
        net_of a db = Float.of_decimal false 5 (-3) ->
        ~ has_row a (trial_balance db))
  /\ trial_balance [] = TrialBalanceState.mk [] Float.zero Float.zero
  /\ TrialBalanceState.is_balanced (trial_balance []) = true.
Proof.
  split; [intros a net H; now apply account_map_item in H|].
  split.
  { intros a Hnan. rewrite has_row_iff. now apply not_suppressed_iff. }
  split.
  { intros r Hin. apply trial_balance_row in Hin. destruct Hin as [Hr _].
    cbv zeta. set (net := net_of (TrialBalanceRow.account r) db) in *.
    rewrite Hr. cbn [row_of fst snd TrialBalanceRow.debit_balance
                     TrialBalanceRow.credit_balance].
    unfold dr_of, cr_of. split; intros Hsign; rewrite Hsign.
    - split; [reflexivity|].
      destruct net as [[]|[]| |[] m e]; try discriminate Hsign; reflexivity.
    - split; [|reflexivity].
      destruct net as [[]|[]| |[] m e]; try discriminate Hsign; reflexivity. }
  split.
  { rewrite trial_balance_closed_form. cbn [TrialBalanceState.rows].
    rewrite map_map. cbn [row_of TrialBalanceRow.account].
    apply kept_keys_nodup, account_map_nodup. }
  split.
  { intros a Hnet Hrow. apply has_row_iff in Hrow.
    rewrite Hnet in Hrow. vm_compute in Hrow. discriminate Hrow. }
  split; reflexivity.
Qed.

Lemma trial_balance_rows_from_nets_witness :
  has_row "Cash" (trial_balance (post_all two_sales_in_a_minute))
  <-> Float.leb Float.c0_01
        (Float.abs (net_of "Cash" (post_all two_sales_in_a_minute))) = true.
Proof.
  apply (proj1 (proj2 (trial_balance_rows_from_nets
                         (post_all two_sales_in_a_minute))) "Cash").
  vm_compute. discriminate.
Defined.

(** ** Whole numbers below 2^53 are floats, and their sums are exact *)

Section Exact.

Lemma dg_pos (p : positive) : 1 <= dg p.
Proof. unfold dg. lia. Qed.

Lemma dg_log2 (p : positive) : dg p = Z.log2 (Zpos p) + 1.
Proof.
  unfold dg.
  assert (H : forall q, Zpos (digits2_pos q) = Zpos (Pos.size q)).
  { induction q; simpl; congruence. }
  destruct p; simpl; rewrite ?Pos2Z.inj_succ, ?H; lia.
Qed.

Lemma dg_bound (p : positive) : dg p <= 53 <-> Zpos p < 2 ^ 53.
Proof.
  rewrite dg_log2, (Z.log2_lt_pow2 (Zpos p) 53) by lia. lia.
Qed.

Lemma shift_succ (p : positive) (k : nat) : shift p (S k) = xO (shift p k).
Proof. reflexivity. Qed.

Lemma shift_xO (p : positive) (k : nat) : shift (xO p) k = xO (shift p k).
Proof. induction k as [|k IH]; [reflexivity|]. now rewrite !shift_succ, IH. Qed.

Lemma shift_add (p : positive) (j k : nat) :
  shift (shift p j) k = shift p (j + k).
Proof.
  induction j as [|j IH]; [reflexivity|].
  rewrite shift_succ, shift_xO, IH. reflexivity.
Qed.

Lemma shift_Z (p : positive) (k : nat) :
  Zpos (shift p k) = Zpos p * 2 ^ Z.of_nat k.
Proof.
  induction k as [|k IH]; [simpl; lia|].
  rewrite shift_succ, Nat2Z.inj_succ, Z.pow_succ_r by lia.
  rewrite Pos2Z.inj_xO, IH. lia.
Qed.

Lemma dg_shift (p : positive) (k : nat) : dg (shift p k) = dg p + Z.of_nat k.
Proof.
  induction k as [|k IH]; [change (shift p 0) with p; lia|].
  rewrite shift_succ.
  change (dg (xO (shift p k))) with (Zpos (Pos.succ (digits2_pos (shift p k)))).
  rewrite Pos2Z.inj_succ. fold (dg (shift p k)). rewrite IH. lia.
Qed.

Lemma pos_iter_shift (p d : positive) :
  Pos.iter xO p d = shift p (Pos.to_nat d).
Proof. apply Pos2Nat.inj_iter. Qed.

Lemma iter_pos_nat {A : Type} (f : A -> A) (n : positive) (x : A) :
  iter_pos f n x = Nat.iter (Pos.to_nat n) f x.
Proof.
  revert x. induction n as [n IH|n IH|]; intros x.
  - change (iter_pos f n~1 x) with (iter_pos f n (iter_pos f n (f x))).
    rewrite !IH, Pos2Nat.inj_xI, <- Nat.iter_add, <- Nat.iter_succ_r.
    f_equal. lia.
  - change (iter_pos f n~0 x) with (iter_pos f n (iter_pos f n x)).
    rewrite !IH, Pos2Nat.inj_xO, <- Nat.iter_add. f_equal. lia.
  - reflexivity.
Qed.

(** Shifting out zeros loses nothing. *)
Lemma shr_zeros (p : positive) (j k : nat) :
  Nat.iter j shr_1 (Build_shr_record (Zpos (shift p (j + k))) false false)
  = Build_shr_record (Zpos (shift p k)) false false.
Proof.
  induction j as [|j IH]; [reflexivity|].
  rewrite Nat.iter_succ_r. simpl Nat.add. rewrite shift_succ. simpl shr_1.
  exact IH.
Qed.

Lemma fexp_small (d : Z) : 1 <= d -> fexp Float.prec Float.emax d = d - 53.
Proof. unfold fexp, emin, Float.prec, Float.emax. lia. Qed.

Lemma shr_fexp_exact (p : positive) (k : nat) :
  dg p <= 53 -> 53 - dg p <= Z.of_nat k ->
  shr_fexp Float.prec Float.emax (Zpos (shift p k)) (- Z.of_nat k) loc_Exact
  = (Build_shr_record (Zpos (shift p (Z.to_nat (53 - dg p)))) false false,
     dg p - 53).
Proof.
  intros Hd Hk. pose proof (dg_pos p) as Hp.
  unfold shr_fexp. simpl Zdigits2. fold (dg (shift p k)).
  rewrite dg_shift.
  replace (dg p + Z.of_nat k + - Z.of_nat k) with (dg p) by lia.
  rewrite fexp_small by exact Hp.
  unfold shr, shr_record_of_loc.
  destruct (dg p - 53 - - Z.of_nat k) as [|j|j] eqn:Hn; try lia.
  - f_equal; [|lia]. f_equal. f_equal. f_equal. lia.
  - rewrite iter_pos_nat.
    replace k with (Pos.to_nat j + Z.to_nat (53 - dg p))%nat at 1 by lia.
    rewrite shr_zeros. f_equal. lia.
Qed.

Lemma binary_round_aux_exact (s : bool) (p : positive) (k : nat) :
  dg p <= 53 -> 53 - dg p <= Z.of_nat k ->
  binary_round_aux Float.prec Float.emax s (Zpos (shift p k)) (- Z.of_nat k)
                   loc_Exact
  = canon s p.
Proof.
  intros Hd Hk. pose proof (dg_pos p) as Hp.
  unfold binary_round_aux.
  rewrite (shr_fexp_exact p k Hd Hk).
  cbn [shr_m loc_of_shr_record round_nearest_even].
  replace (dg p - 53) with (- Z.of_nat (Z.to_nat (53 - dg p))) at 1 by lia.
  rewrite (shr_fexp_exact p (Z.to_nat (53 - dg p)) Hd) by lia.
  cbn [shr_m].
  replace (dg p - 53 <=? Float.emax - Float.prec) with true; [reflexivity|].
  symmetry. apply Z.leb_le. unfold Float.emax, Float.prec. lia.
Qed.

Lemma binary_round_exact (s : bool) (p : positive) (k : nat) :
  dg p <= 53 ->
  binary_round Float.prec Float.emax s (shift p k) (- Z.of_nat k) = canon s p.
Proof.
  intros Hd. pose proof (dg_pos p) as Hp.
  unfold binary_round. fold (dg (shift p k)). rewrite dg_shift.
  replace (dg p + Z.of_nat k + - Z.of_nat k) with (dg p) by lia.
  rewrite fexp_small by exact Hp.
  unfold shl_align.
  destruct (dg p - 53 - - Z.of_nat k) as [|j|j] eqn:Hn.
  - apply binary_round_aux_exact; lia.
  - apply binary_round_aux_exact; lia.
  - rewrite pos_iter_shift, shift_add.
    replace (dg p - 53) with (- Z.of_nat (k + Pos.to_nat j)) by lia.
    apply binary_round_aux_exact; lia.
Qed.

Lemma of_Z_pos (p : positive) :
  Zpos p < 2 ^ 53 -> Float.of_Z (Zpos p) = canon false p.
Proof. intros H. apply dg_bound in H. apply (binary_round_exact false p 0 H). Qed.

Lemma of_Z_neg (p : positive) :
  Zpos p < 2 ^ 53 -> Float.of_Z (Zneg p) = canon true p.
Proof. intros H. apply dg_bound in H. apply (binary_round_exact true p 0 H). Qed.

(** Rounding [c * 2^k] at exponent [-k] gives the float of [c]. *)
Lemma normalize_shifted (c : Z) (k : nat) :
  Z.abs c < 2 ^ 53 ->
  binary_normalize Float.prec Float.emax (c * 2 ^ Z.of_nat k) (- Z.of_nat k) false
  = Float.of_Z c.
Proof.
  intros Hc. destruct c as [|p|p].
  - reflexivity.
  - rewrite of_Z_pos by lia. rewrite <- shift_Z. simpl binary_normalize.
    apply binary_round_exact. apply dg_bound. lia.
  - rewrite of_Z_neg by lia.
    replace (Z.neg p * 2 ^ Z.of_nat k) with (Z.neg (shift p k))
      by (rewrite <- Pos2Z.opp_pos, shift_Z; lia).
    simpl binary_normalize.
    apply binary_round_exact. apply dg_bound. lia.
Qed.

Lemma canon_of_Z (s : bool) (p : positive) :
  Zpos p < 2 ^ 53 -> canon s p = Float.of_Z (cond_Zopp s (Zpos p)).
Proof.
  intros H. destruct s; simpl cond_Zopp.
  - now rewrite of_Z_neg.
  - now rewrite of_Z_pos.
Qed.

Lemma of_Z_cases (n : Z) :
  Z.abs n < 2 ^ 53 ->
  (n = 0 /\ Float.of_Z n = Float.zero)
  \/ exists s p, n = cond_Zopp s (Zpos p) /\ Zpos p < 2 ^ 53
                 /\ Float.of_Z n = canon s p.
Proof.
  intros H. destruct n as [|p|p].
  - left. split; reflexivity.
  - right. exists false, p. repeat split; [lia | apply of_Z_pos; lia].
  - right. exists true, p. repeat split; [lia | apply of_Z_neg; lia].
Qed.

(** Alignment of an integer mantissa on a smaller exponent. *)
Lemma shl_align_canon (p : positive) (ez : Z) :
  dg p <= 53 -> ez <= dg p - 53 ->
  fst (shl_align (shift p (Z.to_nat (53 - dg p))) (dg p - 53) ez)
  = shift p (Z.to_nat (- ez)).
Proof.
  intros Hd He. unfold shl_align.
  destruct (ez - (dg p - 53)) as [|j|j] eqn:Hj; try lia; cbn [fst].
  - f_equal. lia.
  - rewrite pos_iter_shift, shift_add. f_equal. lia.
Qed.

Lemma cond_Zopp_mul (s : bool) (a b : Z) :
  cond_Zopp s a * b = cond_Zopp s (a * b).
Proof. destruct s; simpl; lia. Qed.

Lemma add_canon (sa sb : bool) (pa pb : positive) :
  Zpos pa < 2 ^ 53 -> Zpos pb < 2 ^ 53 ->
  Z.abs (cond_Zopp sa (Zpos pa) + cond_Zopp sb (Zpos pb)) < 2 ^ 53 ->
  Float.add (canon sa pa) (canon sb pb)
  = Float.of_Z (cond_Zopp sa (Zpos pa) + cond_Zopp sb (Zpos pb)).
Proof.
  intros Ha Hb Hab.
  pose proof (proj2 (dg_bound pa) Ha) as Hda.
  pose proof (proj2 (dg_bound pb) Hb) as Hdb.
  pose proof (dg_pos pa). pose proof (dg_pos pb).
  unfold Float.add, canon, SFadd.
  remember (Z.min (dg pa - 53) (dg pb - 53)) as ez eqn:Hez.
  rewrite !shl_align_canon by lia.
  rewrite !shift_Z, <- !cond_Zopp_mul, <- Z.mul_add_distr_r.
  set (k := Z.to_nat (- ez)).
  replace ez with (- Z.of_nat k) by (unfold k; lia).
  now apply normalize_shifted.
Qed.

Lemma sub_canon (sa sb : bool) (pa pb : positive) :
  Zpos pa < 2 ^ 53 -> Zpos pb < 2 ^ 53 ->
  Z.abs (cond_Zopp sa (Zpos pa) - cond_Zopp sb (Zpos pb)) < 2 ^ 53 ->
  Float.sub (canon sa pa) (canon sb pb)
  = Float.of_Z (cond_Zopp sa (Zpos pa) - cond_Zopp sb (Zpos pb)).
Proof.
  intros Ha Hb Hab.
  pose proof (proj2 (dg_bound pa) Ha) as Hda.
  pose proof (proj2 (dg_bound pb) Hb) as Hdb.
  pose proof (dg_pos pa). pose proof (dg_pos pb).
  unfold Float.sub, canon, SFsub.
  remember (Z.min (dg pa - 53) (dg pb - 53)) as ez eqn:Hez.
  rewrite !shl_align_canon by lia.
  rewrite !shift_Z, <- !cond_Zopp_mul, <- Z.mul_sub_distr_r.
  set (k := Z.to_nat (- ez)).
  replace ez with (- Z.of_nat k) by (unfold k; lia).
  now apply normalize_shifted.
Qed.

(** Float addition of two integers is exact when nothing leaves the
    53-bit range. *)
Lemma add_exact (a b : Z) :
  Z.abs a < 2 ^ 53 -> Z.abs b < 2 ^ 53 -> Z.abs (a + b) < 2 ^ 53 ->
  Float.add (Float.of_Z a) (Float.of_Z b) = Float.of_Z (a + b).
Proof.
  intros Ha Hb Hab.
  destruct (of_Z_cases a Ha) as [[-> Hza] | [sa [pa [-> [Hpa Hca]]]]];
    destruct (of_Z_cases b Hb) as [[-> Hzb] | [sb [pb [-> [Hpb Hcb]]]]].
  - reflexivity.
  - rewrite Hza, Hcb. rewrite Z.add_0_l, <- canon_of_Z by exact Hpb. reflexivity.
  - rewrite Hzb, Hca. rewrite Z.add_0_r, <- canon_of_Z by exact Hpa. reflexivity.
  - rewrite Hca, Hcb. now apply add_canon.
Qed.

Lemma sub_exact (a b : Z) :
  Z.abs a < 2 ^ 53 -> Z.abs b < 2 ^ 53 -> Z.abs (a - b) < 2 ^ 53 ->
  Float.sub (Float.of_Z a) (Float.of_Z b) = Float.of_Z (a - b).
Proof.
  intros Ha Hb Hab.
  destruct (of_Z_cases a Ha) as [[-> Hza] | [sa [pa [-> [Hpa Hca]]]]];
    destruct (of_Z_cases b Hb) as [[-> Hzb] | [sb [pb [-> [Hpb Hcb]]]]].
  - reflexivity.
  - rewrite Hza, Hcb.
    replace (0 - cond_Zopp sb (Zpos pb)) with (cond_Zopp (negb sb) (Zpos pb))
      by (destruct sb; simpl; lia).
    rewrite <- canon_of_Z by exact Hpb. reflexivity.
  - rewrite Hzb, Hca. rewrite Z.sub_0_r, <- canon_of_Z by exact Hpa. reflexivity.
  - rewrite Hca, Hcb. now apply sub_canon.
Qed.





End Exact.

Section WholeTables.

Lemma to_Z_of_Z (n : Z) : Z.abs n < 2 ^ 53 -> to_Z (Float.of_Z n) = n.
Proof.
  intros H.
  destruct (of_Z_cases n H) as [[-> _] | [s [p [-> [Hp Hc]]]]]; [reflexivity|].
  rewrite Hc. unfold canon, to_Z. f_equal.
  apply dg_bound in Hp. pose proof (dg_pos p).
  rewrite Z.shiftl_div_pow2, shift_Z by lia.
  replace (- (dg p - 53)) with (Z.of_nat (Z.to_nat (53 - dg p))) by lia.
  apply Z.div_mul. apply Z.pow_nonzero; lia.
Qed.

Lemma zsum_app (l1 l2 : list Z) : zsum (l1 ++ l2)%list = zsum l1 + zsum l2.
Proof. induction l1 as [|x l1 IH]; simpl; lia. Qed.

Lemma zsum_nonneg (l : list Z) : Forall (fun z => 0 <= z) l -> 0 <= zsum l.
Proof. induction 1; simpl; lia. Qed.

Lemma zsum_perm (l1 l2 : list Z) : Permutation l1 l2 -> zsum l1 = zsum l2.
Proof. induction 1; simpl; lia. Qed.

(** A float sum of non-negative integers is exact below 2^53. *)
Lemma fold_add_exact (l : list Z) (acc : Z) :
  Forall (fun z => 0 <= z) l -> 0 <= acc -> acc + zsum l < 2 ^ 53 ->
  fold_left Float.add (map Float.of_Z l) (Float.of_Z acc)
  = Float.of_Z (acc + zsum l).
Proof.
  intros Hl. revert acc. induction Hl as [|z l Hz Hl IH]; intros acc Hacc Hb.
  - simpl. f_equal. lia.
  - pose proof (zsum_nonneg l Hl). simpl in *.
    rewrite add_exact by lia. rewrite IH by lia. f_equal. lia.
Qed.

Lemma where_account_whole (a : string) (db : table) :
  Forall whole_entry db -> Forall whole_entry (Query.where_account a db).
Proof.
  intros H. apply Forall_forall. intros e He.
  apply filter_In in He. rewrite Forall_forall in H. now apply H.
Qed.

Lemma sum_debits_nonneg (db : table) : Forall whole_entry db -> 0 <= sum_debits db.
Proof.
  intros H. apply zsum_nonneg. apply Forall_map.
  eapply Forall_impl; [|exact H]. intros e He. apply He.
Qed.

Lemma sum_credits_nonneg (db : table) : Forall whole_entry db -> 0 <= sum_credits db.
Proof.
  intros H. apply zsum_nonneg. apply Forall_map.
  eapply Forall_impl; [|exact H]. intros e He. apply He.
Qed.

Lemma where_account_sum_debits (a : string) (db : table) :
  Forall whole_entry db -> sum_debits (Query.where_account a db) <= sum_debits db.
Proof.
  induction 1 as [|e db He Hdb IH]; simpl; [lia|].
  destruct He as [_ [_ [Hd _]]].
  destruct (String.eqb (JournalEntry.account e) a);
    unfold sum_debits in *; simpl; lia.
Qed.

Lemma where_account_sum_credits (a : string) (db : table) :
  Forall whole_entry db -> sum_credits (Query.where_account a db) <= sum_credits db.
Proof.
  induction 1 as [|e db He Hdb IH]; simpl; [lia|].
  destruct He as [_ [_ [_ Hc]]].
  destruct (String.eqb (JournalEntry.account e) a);
    unfold sum_credits in *; simpl; lia.
Qed.




End WholeTables.

Section BalancedTotals.







Variable db : table.
Hypothesis Hwhole : Forall whole_entry db.
Hypothesis Hdebits : sum_debits db < 2 ^ 53.
Hypothesis Hcredits : sum_credits db < 2 ^ 53.

Let items := TrialBalanceState.account_map_of db.
















End BalancedTotals.

Section WholePostings.

Lemma account_balance_exact (a : string) (db : table) :
  Forall whole_entry db ->
  sum_debits db < 2 ^ 53 -> sum_credits db < 2 ^ 53 ->
  LedgerState.account_balance (LedgerState.set_account a db LedgerState.init)
  = Float.of_Z (znet a db).
Proof.
  intros Hw Hd Hc.
  unfold LedgerState.account_balance, LedgerState.set_account,
    LedgerState.get_ledger_entries.
  cbn [LedgerState.ledger_entries LedgerState.selected_account].
  set (l := Query.order_by_date_desc (Query.where_account a db)).
  assert (Hperm : Permutation l (Query.where_account a db))
    by apply order_by_date_desc_perm.
  pose proof (where_account_whole a db Hw) as Hw'.
  assert (Hwl : Forall whole_entry l)
    by (apply (Permutation_Forall (Permutation_sym Hperm)); exact Hw').
  pose proof (where_account_sum_debits a db Hw).
  pose proof (where_account_sum_credits a db Hw).
  pose proof (sum_debits_nonneg _ Hw'). pose proof (sum_credits_nonneg _ Hw').
  assert (Hdl : sum_debits l = sum_debits (Query.where_account a db))
    by (apply zsum_perm, Permutation_map, Hperm).
  assert (Hcl : sum_credits l = sum_credits (Query.where_account a db))
    by (apply zsum_perm, Permutation_map, Hperm).
  assert (Hmd : map JournalEntry.debit l = map Float.of_Z (map zdebit l)).
  { rewrite map_map. apply map_ext_in. intros e He.
    rewrite Forall_forall in Hwl. apply (Hwl e He). }
  assert (Hmc : map JournalEntry.credit l = map Float.of_Z (map zcredit l)).
  { rewrite map_map. apply map_ext_in. intros e He.
    rewrite Forall_forall in Hwl. apply (Hwl e He). }
  unfold Float.sum. rewrite Hmd, Hmc.
  change Float.zero with (Float.of_Z 0).
  assert (Hnd : Forall (fun z => 0 <= z) (map zdebit l)).
  { apply Forall_map. eapply Forall_impl; [|exact Hwl]. intros e He. apply He. }
  assert (Hnc : Forall (fun z => 0 <= z) (map zcredit l)).
  { apply Forall_map. eapply Forall_impl; [|exact Hwl]. intros e He. apply He. }
  fold (sum_debits l) in *. fold (sum_credits l) in *.
  rewrite !fold_add_exact;
    try assumption; try lia;
    try (change (zsum (map zdebit l)) with (sum_debits l); lia);
    try (change (zsum (map zcredit l)) with (sum_credits l); lia).
  change (zsum (map zdebit l)) with (sum_debits l).
  change (zsum (map zcredit l)) with (sum_credits l).
  rewrite sub_exact by lia. unfold znet. f_equal. lia.
Qed.

Lemma leb_whole_amount (n : Z) :
  0 < n < 2 ^ 53 -> Float.leb (Float.of_Z n) Float.zero = false.
Proof.
  intros Hn. destruct n as [|p|p]; try lia.
  rewrite of_Z_pos by lia. reflexivity.
Qed.

Lemma post_whole (db : table) (st : AccountingState.t) (p : posting) (n : Z) :
  whole_amount p n ->
  fst (post (db, st) p) = (db ++ legs (p, n))%list.
Proof.
  intros [Hn Hparse]. unfold post.
  rewrite (add_transaction_accepted _ _ _ (Float.of_Z n)); [reflexivity| | |].
  - exact Hparse.
  - now apply leb_whole_amount.
  - destruct n as [|q|q]; try lia. rewrite of_Z_pos by lia. reflexivity.
Qed.

Lemma fold_post_whole (ps : list posting) (ns : list Z) :
  Forall2 whole_amount ps ns ->
  forall st,
    fst (fold_left post ps st)
    = (fst st ++ flat_map legs (combine ps ns))%list.
Proof.
  induction 1 as [|p n ps ns Hpn Hrest IH]; intros [db st].
  - simpl. now rewrite app_nil_r.
  - cbn [fold_left combine flat_map]. rewrite IH.
    rewrite (post_whole db st p n Hpn), <- app_assoc. reflexivity.
Qed.

Lemma post_all_whole (ps : list posting) (ns : list Z) :
  Forall2 whole_amount ps ns ->
  post_all ps = flat_map legs (combine ps ns).
Proof. intros H. unfold post_all. now rewrite (fold_post_whole ps ns H). Qed.

Lemma legs_whole (p : posting) (n : Z) :
  0 < n < 2 ^ 53 -> Forall whole_entry (legs (p, n)).
Proof.
  intros Hn. unfold legs, whole_entry, zdebit, zcredit. cbn [fst snd].
  repeat constructor; cbn [JournalEntry.debit JournalEntry.credit];
    rewrite ?to_Z_of_Z by lia; try reflexivity; try lia.
Qed.

Lemma sum_debits_app (l1 l2 : table) :
  sum_debits (l1 ++ l2)%list = sum_debits l1 + sum_debits l2.
Proof. unfold sum_debits. now rewrite map_app, zsum_app. Qed.

Lemma sum_credits_app (l1 l2 : table) :
  sum_credits (l1 ++ l2)%list = sum_credits l1 + sum_credits l2.
Proof. unfold sum_credits. now rewrite map_app, zsum_app. Qed.

Lemma znet_app (a : string) (l1 l2 : table) :
  znet a (l1 ++ l2)%list = znet a l1 + znet a l2.
Proof.
  unfold znet, Query.where_account.
  rewrite filter_app, sum_debits_app, sum_credits_app. lia.
Qed.

Lemma legs_sums (p : posting) (n : Z) :
  0 < n < 2 ^ 53 ->
  sum_debits (legs (p, n)) = n /\ sum_credits (legs (p, n)) = n
  /\ forall a, znet a (legs (p, n))
               = (if String.eqb (p_debit p) a then n else 0)
                 - (if String.eqb (p_credit p) a then n else 0).
Proof.
  intros Hn.
  assert (Hz : to_Z (Float.of_Z n) = n) by (apply to_Z_of_Z; lia).
  assert (H0 : to_Z Float.zero = 0) by reflexivity.
  split; [|split].
  - unfold sum_debits, legs, zdebit.
    cbn [fst snd map JournalEntry.debit zsum fold_right].
    rewrite Hz, H0. lia.
  - unfold sum_credits, legs, zcredit.
    cbn [fst snd map JournalEntry.credit zsum fold_right].
    rewrite Hz, H0. lia.
  - intros a. unfold znet, Query.where_account, legs.
    cbn [filter JournalEntry.account fst snd].
    destruct (String.eqb (p_debit p) a), (String.eqb (p_credit p) a);
      unfold sum_debits, sum_credits, zdebit, zcredit;
      cbn [map JournalEntry.debit JournalEntry.credit zsum fold_right];
      rewrite ?Hz, ?H0; lia.
Qed.

(** The table built by postings of whole amounts. *)
Lemma posted_table (ps : list posting) (ns : list Z) :
  Forall2 whole_amount ps ns ->
  Forall whole_entry (post_all ps)
  /\ sum_debits (post_all ps) = zsum ns
  /\ sum_credits (post_all ps) = zsum ns
  /\ forall a, znet a (post_all ps) = posting_net a (combine ps ns).
Proof.
  intros H. rewrite (post_all_whole ps ns H).
  induction H as [|p n ps ns [Hn _] Hrest IH].
  - repeat split. constructor.
  - destruct IH as [IHw [IHd [IHc IHn]]].
    destruct (legs_sums p n Hn) as [Hd [Hc Hnet]].
    cbn [combine flat_map].
    rewrite sum_debits_app, sum_credits_app, Hd, Hc, IHd, IHc.
    split; [apply Forall_app; split; [now apply legs_whole | exact IHw]|].
    split; [reflexivity | split; [reflexivity|]].
    intros a. rewrite znet_app, Hnet, IHn. reflexivity.
Qed.

End WholePostings.




(** With no row skipped, rounding alone separates the totals: 0.1 + 0.2
    on the debit side is not 0.2 + 0.3 less 0.2 on the credit side. *)
Example dimes_round :
  Forall valid_posting three_dimes
  /\ map TrialBalanceRow.account
         (TrialBalanceState.rows (trial_balance (post_all three_dimes)))
     = ["Cash"; "Sales Revenue"; "Bank Loan"; "Supplies"]
  /\ SFeqb (TrialBalanceState.total_dr (trial_balance (post_all three_dimes)))
           (TrialBalanceState.total_cr (trial_balance (post_all three_dimes)))
     = false.
Proof.
  split; [repeat constructor; eexists; split; vm_compute; reflexivity|].
  split; vm_compute; reflexivity.
Qed.



(** C5, as worded, fails: Cash is debited 2^53 - 1 and 2 and credited
    2^53 - 1; the debits add up to 2^53 + 1, which rounds to 2^53, and the
    balance shown is 1 where the postings add up to 2. *)
Lemma large_amounts_round :
  Forall2 whole_amount large_postings large_amounts
  /\ posting_net "Cash" (combine large_postings large_amounts) = 2
  /\ LedgerState.account_balance
       (LedgerState.set_account "Cash" (post_all large_postings) LedgerState.init)
     = Float.of_Z 1
  /\ ~ balance_is_posting_net large_postings large_amounts.
Proof.
  assert (Hwhole : Forall2 whole_amount large_postings large_amounts).
  { repeat constructor; try (vm_compute; reflexivity); lia. }
  split; [exact Hwhole|].
  split; [vm_compute; reflexivity|].
  split; [vm_compute; reflexivity|].
  intros H. specialize (H Hwhole "Cash"). vm_compute in H. discriminate H.
Qed.

(** C5 (amended): when the posted amounts are whole numbers that add up
    to less than 2^53, then for every account [a] the account balance of
    the ledger entries of [a] (sum of debit minus sum of credit) is the sum
    over the postings of +amount where [a] was the debit account and
    -amount where [a] was the credit account. *)
Theorem account_balance_of_whole_postings
    (ps : list posting) (ns : list Z) (a : string) :
  Forall2 whole_amount ps ns ->
  zsum ns < 2 ^ 53 ->
  LedgerState.account_balance (LedgerState.set_account a (post_all ps) LedgerState.init)
  = Float.of_Z (posting_net a (combine ps ns)).
Proof.
  intros Hps Hsum.
  destruct (posted_table ps ns Hps) as [Hw [Hd [Hc Hnet]]].
  rewrite account_balance_exact by (try assumption; lia).
  now rewrite Hnet.
Qed.

Lemma account_balance_of_whole_postings_witness :
  LedgerState.account_balance
    (LedgerState.set_account "Cash" (post_all two_sales_in_a_minute) LedgerState.init)
  = Float.of_Z 30.
Proof.
  apply (account_balance_of_whole_postings two_sales_in_a_minute [10; 20] "Cash").
  - repeat constructor; try lia; vm_compute; reflexivity.
  - vm_compute. reflexivity.
Defined.

(* ================================================================== *)
(** * Further properties of the handlers *)

Section AppendOnly.

(** X1: every press of the button ends in one of two ways.  Either the
    handler stops on an alert or on the exception of a failed commit, and
    the table and the form are exactly as they were; or it returns
    normally, and exactly two rows stand after the existing ones, the two
    account fields are kept, and the entries are reloaded as the whole
    table, newest first. *)
Theorem add_transaction_alert_or_two_rows
    (now : string) (db : table) (self : AccountingState.t) :
  (exists ev,
     AccountingState.add_transaction now db self = (db, self, Some ev)
     /\ ((exists msg, ev = window_alert msg) \/ ev = raised "IntegrityError"))
  \/ (exists debit_entry credit_entry self',
        AccountingState.add_transaction now db self
        = ((db ++ [debit_entry; credit_entry])%list, self', None)
        /\ AccountingState.debit_account self' = AccountingState.debit_account self
        /\ AccountingState.credit_account self' = AccountingState.credit_account self
        /\ AccountingState.entries self'
           = rev (db ++ [debit_entry; credit_entry])%list).
Proof.
  destruct (FloatParse.float_of_string (AccountingState.amount self)) as [amt|] eqn:Hparse.
  - destruct (Float.leb amt Float.zero) eqn:Hle.
    + left. eexists. split.
      * apply (add_transaction_non_positive now db self amt Hparse Hle).
      * left. eexists. reflexivity.
    + destruct (not_leb_zero_cases amt Hle) as [-> | Hpos].
      * left. eexists. split.
        -- apply (add_transaction_raises now db self Hparse).
        -- right. reflexivity.
      * right. do 3 eexists.
        rewrite (add_transaction_accepted now db self amt Hparse Hle
                   (ltb_zero_not_nan amt Hpos)).
        repeat split.
  - left. eexists. split.
    + apply (add_transaction_invalid now db self Hparse).
    + left. eexists. reflexivity.
Qed.

Lemma post_step (db : table) (st : AccountingState.t) (p : posting) :
  (post (db, st) p
   = (db, AccountingState.mk (p_description p) (p_amount p) (p_debit p) (p_credit p)
                             (AccountingState.entries st)))
  \/ (exists amt,
        Float.leb amt Float.zero = false
        /\ FloatParse.float_of_string (p_amount p) = Some amt
        /\ fst (post (db, st) p)
           = (db ++ [JournalEntry.mk (p_date p) (p_description p) (p_debit p)
                                     "Debit" amt Float.zero;
                     JournalEntry.mk (p_date p) (p_description p) (p_credit p)
                                     "Credit" Float.zero amt])%list
        /\ AccountingState.entries (snd (post (db, st) p))
           = rev (fst (post (db, st) p))).
Proof.
  unfold post.
  set (self := AccountingState.mk _ _ _ _ _).
  destruct (FloatParse.float_of_string (AccountingState.amount self)) as [amt|] eqn:Hparse.
  - destruct (Float.leb amt Float.zero) eqn:Hle.
    + left. now rewrite (add_transaction_non_positive _ db self amt Hparse Hle).
    + destruct (not_leb_zero_cases amt Hle) as [-> | Hpos].
      * left. now rewrite (add_transaction_raises _ db self Hparse).
      * right. exists amt. split; [exact Hle|]. split; [exact Hparse|].
        rewrite (add_transaction_accepted _ db self amt Hparse Hle
                   (ltb_zero_not_nan amt Hpos)).
        split; reflexivity.
  - left. now rewrite (add_transaction_invalid _ db self Hparse).
Qed.

(** Invariants of a run of the form. *)
Lemma fold_post_invariant (ps : list posting) (st : table * AccountingState.t) :
  Paired (fst st) ->
  AccountingState.entries (snd st) = rev (fst st) ->
  Paired (fst (fold_left post ps st))
  /\ AccountingState.entries (snd (fold_left post ps st))
     = rev (fst (fold_left post ps st))
  /\ exists added, fst (fold_left post ps st) = (fst st ++ added)%list.
Proof.
  revert st. induction ps as [|p ps IH]; intros [db self] Hpaired Hentries.
  - simpl. repeat split; try assumption. exists []. now rewrite app_nil_r.
  - cbn [fold_left].
    destruct (post_step db self p) as [Hsame | [amt [Hle [Hparse [Hdb Hent]]]]].
    + rewrite Hsame.
      exact (IH (db, AccountingState.mk (p_description p) (p_amount p) (p_debit p)
                       (p_credit p) (AccountingState.entries self))
                Hpaired Hentries).
    + destruct (post (db, self) p) as [db' self'] eqn:Hpost.
      cbn [fst snd] in Hdb, Hent.
      destruct (IH (db', self')) as [H1 [H2 [added H3]]].
      * cbn [fst]. rewrite Hdb. now constructor.
      * exact Hent.
      * split; [exact H1|]. split; [exact H2|].
        cbn [fst] in H3 |- *. rewrite H3, Hdb, <- app_assoc. eexists. reflexivity.
Qed.

End AppendOnly.

Section Integrity.

Lemma binary_round_aux_sign (s : bool) (m e : Z) (l : location) :
  0 <= m ->
  sign_ok (binary_round_aux Float.prec Float.emax s m e l) = negb s
  \/ binary_round_aux Float.prec Float.emax s m e l = S754_nan.
Proof.
  intros _. unfold binary_round_aux.
  destruct (shr_fexp _ _ _ _ _) as [mrs' e'].
  destruct (shr_fexp _ _ _ _ _) as [mrs'' e''].
  destruct (shr_m mrs''); [left; reflexivity | | right; reflexivity].
  left. destruct (e'' <=? Float.emax - Float.prec); reflexivity.
Qed.

Lemma sign_ok_add (x y : Float.float) :
  sign_ok x = true -> sign_ok y = true -> sign_ok (Float.add x y) = true.
Proof.
  destruct x as [[]|[]| |[] mx ex], y as [[]|[]| |[] my ey];
    try discriminate; try reflexivity.
  intros _ _. unfold Float.add, SFadd. cbn [cond_Zopp].
  set (ez := Z.min ex ey).
  change (Zpos (fst (shl_align mx ex ez)) + Zpos (fst (shl_align my ey ez)))
    with (Zpos (fst (shl_align mx ex ez) + fst (shl_align my ey ez))).
  cbn [binary_normalize]. unfold binary_round.
  destruct (shl_align _ _ _) as [mz ez'].
  destruct (binary_round_aux_sign false (Zpos mz) ez' loc_Exact) as [H | H];
    [lia | exact H | now rewrite H].
Qed.

Lemma add_zero_r (x : Float.float) :
  sign_ok x = true -> Float.add x Float.zero = x.
Proof. destruct x as [[]|[]| |[] m e]; try discriminate; reflexivity. Qed.

Lemma accepted_sign_ok (amt : Float.float) :
  Float.leb amt Float.zero = false -> sign_ok amt = true.
Proof. destruct amt as [[]|[]| |[] m e]; cbv; congruence. Qed.

(** On a table of pairs, read newest first, the debit column and the
    credit column add up to the same float, step by step. *)
Lemma paired_sums (db : table) :
  Paired db ->
  forall acc, sign_ok acc = true ->
    fold_left Float.add (map JournalEntry.debit (rev db)) acc
    = fold_left Float.add (map JournalEntry.credit (rev db)) acc
    /\ sign_ok (fold_left Float.add (map JournalEntry.debit (rev db)) acc) = true.
Proof.
  induction 1 as [|db date description da ca amt Hpaired IH Hle]; intros acc Hacc.
  - split; [reflexivity | exact Hacc].
  - rewrite rev_app_distr. cbn [rev app map fold_left JournalEntry.debit
                                   JournalEntry.credit].
    pose proof (accepted_sign_ok amt Hle) as Hamt.
    pose proof (sign_ok_add acc amt Hacc Hamt) as Hsum.
    rewrite (add_zero_r acc Hacc), (add_zero_r (Float.add acc amt) Hsum).
    apply IH. exact Hsum.
Qed.

Lemma sub_diag (x : Float.float) :
  sign_ok x = true ->
  Float.sub x x = if is_finite x then Float.zero else Float.nan.
Proof.
  destruct x as [[]|[]| |[] m e]; try discriminate; try reflexivity.
  intros _. unfold Float.sub, SFsub. now rewrite Z.sub_diag.
Qed.

End Integrity.

Lemma run_posts_invariant (ps : list posting) :
  Paired (post_all ps)
  /\ AccountingState.entries (snd (run_posts ps)) = rev (post_all ps).
Proof.
  unfold post_all, run_posts.
  destruct (fold_post_invariant ps ([], AccountingState.init)) as [H1 [H2 _]];
    [constructor | reflexivity | now split].
Qed.

(** X2: rows are only ever added: what a run of postings has stored is
    still there, unchanged and in place, after any further postings. *)
Theorem posts_only_append (ps1 ps2 : list posting) :
  exists added, post_all (ps1 ++ ps2) = (post_all ps1 ++ added)%list.
Proof.
  unfold post_all. rewrite fold_left_app.
  destruct (run_posts_invariant ps1) as [Hp He].
  unfold post_all, run_posts in Hp, He.
  destruct (fold_left post ps1 ([], AccountingState.init)) as [db st].
  destruct (fold_post_invariant ps2 (db, st) Hp He) as [_ [_ Hadd]].
  exact Hadd.
Qed.

(** X3: whatever is typed into the form, the table is always a sequence
    of pairs: a "Debit" row followed by a "Credit" row with the same date,
    description and amount, the other column of each being 0. *)
Theorem posted_table_is_paired (ps : list posting) : Paired (post_all ps).
Proof. apply run_posts_invariant. Qed.

(** X4: after any run of postings from a fresh page, the entries held by
    the journal page are all the rows of the table, newest first. *)
Theorem entries_mirror_table (ps : list posting) :
  AccountingState.entries (snd (run_posts ps)) = rev (post_all ps).
Proof. apply run_posts_invariant. Qed.

(** X5: the ledger integrity check.  After any run of postings the debit
    column and the credit column of the journal page add up to the same
    float, and [total_balance] is 0.0 when that sum is finite (and NaN
    when it has overflowed to infinity or is NaN). *)
Theorem total_balance_after_posts (ps : list posting) :
  let self := snd (run_posts ps) in
  let total_dr := Float.sum (map JournalEntry.debit (AccountingState.entries self)) in
  let total_cr := Float.sum (map JournalEntry.credit (AccountingState.entries self)) in
  total_dr = total_cr
  /\ AccountingState.total_balance self
     = if is_finite total_dr then Float.zero else Float.nan.
Proof.
  cbv zeta. unfold AccountingState.total_balance.
  destruct (run_posts_invariant ps) as [Hp He]. rewrite He.
  destruct (paired_sums (post_all ps) Hp Float.zero eq_refl) as [Heq Hsign].
  unfold Float.sum. rewrite <- Heq. split; [reflexivity|].
  now apply sub_diag.
Qed.

Section Accounts.

Lemma distinct_In (a : string) (l seen : list string) :
  In a (Query.distinct seen l) <-> In a l /\ ~ In a seen.
Proof.
  revert seen. induction l as [|x l IH]; intros seen; simpl.
  - tauto.
  - destruct (mem x seen) eqn:Hm.
    + apply mem_In in Hm. rewrite IH. split.
      * intros [H1 H2]. split; [now right | exact H2].
      * intros [[-> | H1] H2]; [contradiction | now split].
    + apply mem_false in Hm. simpl. rewrite IH. simpl. split.
      * intros [-> | [H1 H2]]; [split; [now left | exact Hm]|].
        split; [now right | tauto].
      * intros [[-> | H1] H2]; [now left|].
        destruct (string_dec x a) as [-> | Hne]; [now left|].
        right. split; [exact H1|]. intros [H | H]; [contradiction | contradiction].
Qed.

Lemma distinct_NoDup (l seen : list string) : NoDup (Query.distinct seen l).
Proof.
  revert seen. induction l as [|x l IH]; intros seen; simpl.
  - constructor.
  - destruct (mem x seen); [apply IH|].
    constructor; [|apply IH].
    rewrite distinct_In. simpl. tauto.
Qed.

Lemma distinct_accounts_In (a : string) (db : table) :
  In a (Query.distinct_accounts db)
  <-> exists e, In e db /\ JournalEntry.account e = a.
Proof.
  unfold Query.distinct_accounts. rewrite distinct_In, in_map_iff. simpl.
  split.
  - intros [[e [He Hin]] _]. exists e. tauto.
  - intros [e [Hin He]]. split; [exists e; tauto | tauto].
Qed.

Lemma where_account_nonempty (a : string) (db : table) :
  In a (Query.distinct_accounts db) <-> Query.where_account a db <> [].
Proof.
  rewrite distinct_accounts_In. unfold Query.where_account. split.
  - intros [e [Hin He]] Hnil.
    assert (H : In e (filter (fun e => String.eqb (JournalEntry.account e) a) db)).
    { apply filter_In. split; [exact Hin | now apply String.eqb_eq]. }
    now rewrite Hnil in H.
  - intros Hne.
    destruct (filter (fun e => String.eqb (JournalEntry.account e) a) db)
      as [|e l] eqn:Hf; [now elim Hne|].
    assert (H : In e (filter (fun e => String.eqb (JournalEntry.account e) a) db))
      by (rewrite Hf; now left).
    apply filter_In in H. exists e. split; [tauto|]. now apply String.eqb_eq.
Qed.

Lemma order_by_date_desc_nil (l : table) :
  Query.order_by_date_desc l = [] <-> l = [].
Proof.
  split; [|intros ->; reflexivity].
  intros H. pose proof (order_by_date_desc_perm l) as Hp.
  rewrite H in Hp. now apply Permutation_nil in Hp.
Qed.

End Accounts.

(** X6: after [get_accounts], the list of available accounts holds each
    account name of the table once, and no other name. *)
Theorem available_accounts_are_the_accounts (db : table) (self : LedgerState.t) :
  let self' := LedgerState.get_accounts db self in
  NoDup (LedgerState.available_accounts self')
  /\ forall a, In a (LedgerState.available_accounts self')
               <-> exists e, In e db /\ JournalEntry.account e = a.
Proof.
  cbv zeta. unfold LedgerState.get_accounts, LedgerState.get_ledger_entries.
  cbn [LedgerState.available_accounts]. split.
  - apply distinct_NoDup.
  - intros a. apply distinct_accounts_In.
Qed.

Lemma get_accounts_selected (db : table) (self : LedgerState.t) :
  LedgerState.selected_account (LedgerState.get_accounts db self)
  = match Query.distinct_accounts db with
    | first :: _ =>
        if mem (LedgerState.selected_account self) (Query.distinct_accounts db)
        then LedgerState.selected_account self else first
    | [] => LedgerState.selected_account self
    end.
Proof.
  unfold LedgerState.get_accounts, LedgerState.get_ledger_entries.
  cbn [LedgerState.selected_account].
  destruct (Query.distinct_accounts db) as [|first rest]; [reflexivity|].
  destruct (mem (LedgerState.selected_account self) (first :: rest)); reflexivity.
Qed.

(** X7: on a table that is not empty, [get_accounts] leaves the page on an
    account that is one of the available accounts and shows at least one
    entry for it; an account that was selected and is still in use stays
    selected. *)
Theorem get_accounts_selection_is_valid (db : table) (self : LedgerState.t) :
  db <> [] ->
  let self' := LedgerState.get_accounts db self in
  In (LedgerState.selected_account self') (LedgerState.available_accounts self')
  /\ LedgerState.ledger_entries self' <> []
  /\ (In (LedgerState.selected_account self) (LedgerState.available_accounts self') ->
      LedgerState.selected_account self' = LedgerState.selected_account self).
Proof.
  intros Hne. cbv zeta.
  assert (Havail : LedgerState.available_accounts (LedgerState.get_accounts db self)
                   = Query.distinct_accounts db) by reflexivity.
  assert (Hentries : LedgerState.ledger_entries (LedgerState.get_accounts db self)
                     = Query.order_by_date_desc
                         (Query.where_account
                            (LedgerState.selected_account
                               (LedgerState.get_accounts db self)) db))
    by reflexivity.
  rewrite Havail, Hentries, get_accounts_selected.
  destruct (Query.distinct_accounts db) as [|first rest] eqn:Hd.
  { destruct db as [|e db]; [now elim Hne|].
    assert (H : In (JournalEntry.account e) (Query.distinct_accounts (e :: db))).
    { apply distinct_accounts_In. exists e. split; [now left | reflexivity]. }
    now rewrite Hd in H. }
  rewrite <- Hd.
  destruct (mem (LedgerState.selected_account self) (Query.distinct_accounts db))
    eqn:Hm.
  - apply mem_In in Hm. split; [exact Hm|]. split; [|reflexivity].
    rewrite order_by_date_desc_nil. now apply where_account_nonempty.
  - assert (Hfirst : In first (Query.distinct_accounts db))
      by (rewrite Hd; now left).
    split; [exact Hfirst|]. split.
    + rewrite order_by_date_desc_nil. now apply where_account_nonempty.
    + apply mem_false in Hm. intros H. contradiction.
Qed.

Lemma get_accounts_selection_is_valid_witness :
  LedgerState.ledger_entries
    (LedgerState.get_accounts (post_all two_sales_in_a_minute)
       (LedgerState.mk "Rent Expense" [] []))
  <> [].
Proof.
  apply (get_accounts_selection_is_valid (post_all two_sales_in_a_minute)
           (LedgerState.mk "Rent Expense" [] [])).
  vm_compute. discriminate.
Defined.

(** X8: running [get_accounts] a second time on the same table changes
    nothing. *)
Theorem get_accounts_twice (db : table) (self : LedgerState.t) :
  LedgerState.get_accounts db (LedgerState.get_accounts db self)
  = LedgerState.get_accounts db self.
Proof.
  assert (Hsel : LedgerState.selected_account
                   (LedgerState.get_accounts db (LedgerState.get_accounts db self))
                 = LedgerState.selected_account (LedgerState.get_accounts db self)).
  { rewrite (get_accounts_selected db (LedgerState.get_accounts db self)).
    destruct (Query.distinct_accounts db) as [|first rest] eqn:Hd; [reflexivity|].
    rewrite <- Hd.
    replace (mem (LedgerState.selected_account (LedgerState.get_accounts db self))
                 (Query.distinct_accounts db)) with true; [reflexivity|].
    symmetry. apply mem_In. rewrite get_accounts_selected, Hd, <- Hd.
    destruct (mem (LedgerState.selected_account self) (Query.distinct_accounts db))
      eqn:Hm; [now apply mem_In | rewrite Hd; now left]. }
  unfold LedgerState.get_accounts at 1. unfold LedgerState.get_ledger_entries.
  cbn [LedgerState.selected_account LedgerState.available_accounts].
  unfold LedgerState.get_accounts at 1 in Hsel.
  unfold LedgerState.get_ledger_entries in Hsel.
  cbn [LedgerState.selected_account] in Hsel.
  rewrite Hsel.
  unfold LedgerState.get_accounts, LedgerState.get_ledger_entries.
  reflexivity.
Qed.

(** X9: the ledger of an account that no row uses is empty, its balance is
    0.0 and shows as "0.00". *)
Theorem unused_account_has_empty_ledger
    (a : string) (db : table) (self : LedgerState.t) :
  (forall e, In e db -> JournalEntry.account e <> a) ->
  let self' := LedgerState.set_account a db self in
  LedgerState.ledger_entries self' = []
  /\ LedgerState.account_balance self' = Float.zero
  /\ LedgerState.formatted_balance self' = "0.00".
Proof.
  intros Hunused. cbv zeta.
  assert (Hnil : Query.where_account a db = []).
  { unfold Query.where_account.
    induction db as [|e db IH]; [reflexivity|]. simpl.
    destruct (String.eqb (JournalEntry.account e) a) eqn:He.
    - apply String.eqb_eq in He. elim (Hunused e); [now left | exact He].
    - apply IH. intros e' He'. apply Hunused. now right. }
  unfold LedgerState.formatted_balance, LedgerState.account_balance,
    LedgerState.set_account, LedgerState.get_ledger_entries.
  cbn [LedgerState.ledger_entries LedgerState.selected_account].
  rewrite Hnil. repeat split.
Qed.

Lemma unused_account_has_empty_ledger_witness :
  LedgerState.formatted_balance
    (LedgerState.set_account "Rent Expense" (post_all two_sales_in_a_minute)
                             LedgerState.init)
  = "0.00".
Proof.
  apply (unused_account_has_empty_ledger "Rent Expense"
           (post_all two_sales_in_a_minute) LedgerState.init).
  vm_compute. intros e [<- | [<- | [<- | [<- | []]]]]; discriminate.
Defined.

Section RowOrder.

Lemma distinct_ext (l s1 s2 : list string) :
  (forall a, In a s1 <-> In a s2) -> Query.distinct s1 l = Query.distinct s2 l.
Proof.
  revert s1 s2. induction l as [|x l IH]; intros s1 s2 Hext; [reflexivity|].
  simpl.
  assert (Hm : mem x s1 = mem x s2).
  { destruct (mem x s1) eqn:H1; symmetry.
    - apply mem_In. apply Hext. now apply mem_In.
    - apply mem_false. rewrite <- Hext. now apply mem_false. }
  rewrite Hm. destruct (mem x s2); [now apply IH|].
  f_equal. apply IH. intros a. simpl. now rewrite Hext.
Qed.

Lemma aggregate_keys (m : Dict.t) (e : JournalEntry.t) :
  map fst (TrialBalanceState.aggregate m e)
  = if mem (JournalEntry.account e) (map fst m) then map fst m
    else (map fst m ++ [JournalEntry.account e])%list.
Proof.
  unfold TrialBalanceState.aggregate.
  rewrite <- dict_contains_keys.
  destruct (Dict.contains (JournalEntry.account e) m) eqn:Hc; cbn [negb].
  - unfold Dict.contains in Hc.
    destruct (Dict.get (JournalEntry.account e) m) eqn:Hg; [|discriminate].
    rewrite dict_keys_set. unfold Dict.contains. now rewrite Hg.
  - rewrite dict_get_set, String.eqb_refl.
    rewrite dict_keys_set.
    replace (Dict.contains (JournalEntry.account e)
               (Dict.set (JournalEntry.account e) Float.zero m)) with true
      by (unfold Dict.contains; now rewrite dict_get_set, String.eqb_refl).
    rewrite dict_keys_set, Hc. reflexivity.
Qed.

Lemma fold_aggregate_keys (es : table) (m : Dict.t) :
  map fst (fold_left TrialBalanceState.aggregate es m)
  = (map fst m ++ Query.distinct (map fst m) (map JournalEntry.account es))%list.
Proof.
  revert m. induction es as [|e es IH]; intros m.
  - simpl. now rewrite app_nil_r.
  - cbn [fold_left map Query.distinct]. rewrite IH, aggregate_keys.
    destruct (mem (JournalEntry.account e) (map fst m)); [reflexivity|].
    rewrite <- app_assoc. cbn [app]. f_equal. f_equal.
    apply distinct_ext. intros a. rewrite in_app_iff. simpl. tauto.
Qed.

(** The keys of the account map are the accounts in first-seen order. *)
Lemma account_map_keys (db : table) :
  map fst (TrialBalanceState.account_map_of db) = Query.distinct_accounts db.
Proof. apply (fold_aggregate_keys db []). Qed.

Lemma account_map_by_key (db : table) :
  TrialBalanceState.account_map_of db
  = map (fun a => (a, net_of a db)) (Query.distinct_accounts db).
Proof.
  rewrite <- account_map_keys, map_map.
  rewrite <- (map_id (TrialBalanceState.account_map_of db)) at 1.
  apply map_ext_in. intros [a v] Hin.
  apply account_map_item in Hin. destruct Hin as [-> _]. reflexivity.
Qed.

Lemma filter_map_swap {A B : Type} (f : A -> B) (p : B -> bool) (l : list A) :
  filter p (map f l) = map f (filter (fun x => p (f x)) l).
Proof.
  induction l as [|x l IH]; [reflexivity|]. simpl.
  destruct (p (f x)); simpl; now rewrite IH.
Qed.

End RowOrder.

(** X10: the report lists the accounts in the order in which they first
    appear in the table, leaving out those whose net passes the test
    [abs(net) < 0.01]; each row is built from the net of its account. *)
Theorem rows_in_first_seen_order (db : table) :
  TrialBalanceState.rows (trial_balance db)
  = map (fun a => row_of (a, net_of a db))
        (filter (fun a => negb (suppressed (net_of a db)))
                (Query.distinct_accounts db)).
Proof.
  rewrite trial_balance_closed_form. cbn [TrialBalanceState.rows].
  rewrite account_map_by_key, filter_map_swap, map_map. reflexivity.
Qed.

(** X11: in every row of every report both balances are non-negative
    numbers (never NaN, never negative) and at least one of them is 0.0. *)
Theorem row_balances_non_negative (db : table) (r : TrialBalanceRow.t) :
  In r (TrialBalanceState.rows (trial_balance db)) ->
  Float.leb Float.zero (TrialBalanceRow.debit_balance r) = true
  /\ Float.leb Float.zero (TrialBalanceRow.credit_balance r) = true
  /\ (TrialBalanceRow.debit_balance r = Float.zero
      \/ TrialBalanceRow.credit_balance r = Float.zero).
Proof.
  intros Hin. apply trial_balance_row in Hin. destruct Hin as [Hr _].
  rewrite Hr. cbn [row_of fst snd TrialBalanceRow.debit_balance
                   TrialBalanceRow.credit_balance].
  destruct (net_of (TrialBalanceRow.account r) db) as [[]|[]| |[] m e];
    cbv; auto.
Qed.

Lemma row_balances_non_negative_witness :
  Float.leb Float.zero (Float.of_Z 30) = true
  /\ Float.leb Float.zero Float.zero = true
  /\ (Float.of_Z 30 = Float.zero \/ Float.zero = Float.zero).
Proof.
  apply (row_balances_non_negative (post_all two_sales_in_a_minute)
           (TrialBalanceRow.mk "Cash" (Float.of_Z 30) Float.zero "30.00" "0.00")).
  vm_compute. left. reflexivity.
Defined.

Section WholeReport.




End WholeReport.







Lemma legs_entry_ok (date description debit_account credit_account : string)
      (amt : Float.float) :
  Float.leb amt Float.zero = false -> amt <> Float.nan ->
  entry_ok (JournalEntry.mk date description debit_account "Debit" amt Float.zero)
  = true
  /\ entry_ok (JournalEntry.mk date description credit_account "Credit" Float.zero amt)
     = true.
Proof.
  intros Hle Hnan.
  destruct (not_leb_zero_cases amt Hle) as [-> | Hpos]; [now elim Hnan|].
  unfold entry_ok. cbn [JournalEntry.debit JournalEntry.credit JournalEntry.category].
  rewrite (ltb_zero_leb amt Hpos), !orb_true_r. split; reflexivity.
Qed.

Lemma fold_post_entry_ok (ps : list posting) (st : table * AccountingState.t) :
  Forall not_nan_amount ps ->
  forallb entry_ok (fst st) = true ->
  forallb entry_ok (fst (fold_left post ps st)) = true.
Proof.
  intros Hps. revert st.
  induction Hps as [|p ps Hp Hps IH]; intros [db self] Hdb; [exact Hdb|].
  cbn [fold_left]. apply IH.
  destruct (post_step db self p) as [Hsame | [amt [Hle [Hparse [Hrows _]]]]].
  - rewrite Hsame. exact Hdb.
  - rewrite Hrows, forallb_app. cbn [fst] in Hdb. rewrite Hdb.
    assert (Hnan : amt <> Float.nan).
    { intros ->. now apply Hp. }
    destruct (legs_entry_ok (p_date p) (p_description p) (p_debit p) (p_credit p)
                            amt Hle Hnan) as [H1 H2].
    cbn [forallb]. now rewrite H1, H2.
Qed.

(** X15: as long as no posted amount reads as NaN, every row of the table
    has the shape of the data model: debit and credit are non-negative,
    debit is nonzero only in a "Debit" row and credit only in a "Credit"
    row. *)
Theorem stored_rows_well_formed (ps : list posting) :
  Forall not_nan_amount ps ->
  forallb entry_ok (post_all ps) = true.
Proof.
  intros Hps. unfold post_all.
  now apply (fold_post_entry_ok ps ([], AccountingState.init) Hps).
Qed.

Lemma stored_rows_well_formed_witness :
  forallb entry_ok (post_all two_sales_in_a_minute) = true.
Proof.
  apply (stored_rows_well_formed two_sales_in_a_minute).
  repeat constructor; unfold not_nan_amount; vm_compute; discriminate.
Defined.
